(** * The minta GUI shell: window, controller, node worker

    A shallow embedding of [src/minta/bitcoin.cpp] ([GuiMain]),
    [src/minta/controller.cpp] ([GuiController], [NodeWorker]) and
    [src/minta/bitcoingui.cpp] ([BitcoinGUI]).

    The program is Qt glue: objects whose member functions are wired by
    [connect], and three threads that exchange queued calls.  The model keeps
    that shape.  A [state] holds the connection table in the order the
    constructors fill it, each thread's queue of posted calls, the flags the
    slots read and write, and a trace of what has happened.  A signal is
    activated by walking the connection table: a receiver living on the
    emitting thread is called at once, any other receiver gets the call
    posted to its thread.  Each handler runs to its end before another
    starts.  A schedule (a list of [action]) says which thread handles its
    next event; the theorems about runs hold for every schedule. *)

From Stdlib Require Import List String ZArith Bool Lia.
Import ListNotations.
Local Open Scope string_scope.
Local Open Scope list_scope.

(** ** Threads, objects, member functions *)

Inductive thread := GuiThread | NodeThread | InitThread.

Inductive object :=
  | Button        (* BitcoinGUI::m_button *)
  | Window        (* GuiController::m_window *)
  | Controller    (* the GuiController *)
  | Worker        (* GuiController::m_node *)
  | Executor      (* NodeWorker::m_executor *)
  | Context.      (* the executor's own worker object *)

(** Signals and slots, named class by class as in the headers. *)
Inductive method :=
  (* QPushButton *)
  | Button_clicked
  (* BitcoinGUI, Q_SIGNALS *)
  | BitcoinGUI_quitRequested
  | BitcoinGUI_listCommands
  (* BitcoinGUI, slots; show is inherited from QMainWindow *)
  | BitcoinGUI_rcvCommands
  | BitcoinGUI_doClose
  | QMainWindow_show
  (* GuiController, Q_SIGNALS *)
  | GuiController_initNode
  | GuiController_quitRequested
  (* NodeWorker, Q_SIGNALS *)
  | NodeWorker_commands
  | NodeWorker_baseInitSuccess
  | NodeWorker_baseInitFail
  | NodeWorker_initSuccess
  | NodeWorker_initFail
  | NodeWorker_shutdown
  | NodeWorker_shutdownResult
  (* NodeWorker, Q_SLOTS *)
  | NodeWorker_baseInitNode
  | NodeWorker_initNode
  | NodeWorker_initializeResult
  | NodeWorker_onBaseInitFail
  | NodeWorker_onInitFail
  | NodeWorker_onShutdown
  | NodeWorker_quitApplication
  | NodeWorker_listCommands
  (* InitExecutor *)
  | InitExecutor_initializeResult
  | InitExecutor_shutdownResult
  | InitExecutor_initialize
  | InitExecutor_shutdown
  (* the jobs the executor hands to its context *)
  | Context_initialize
  | Context_shutdown.

Scheme Equality for thread.
Scheme Equality for method.

Definition is_signal (m : method) : bool :=
  match m with
  | Button_clicked
  | BitcoinGUI_quitRequested | BitcoinGUI_listCommands
  | GuiController_initNode | GuiController_quitRequested
  | NodeWorker_commands
  | NodeWorker_baseInitSuccess | NodeWorker_baseInitFail
  | NodeWorker_initSuccess | NodeWorker_initFail
  | NodeWorker_shutdown | NodeWorker_shutdownResult
  | InitExecutor_initializeResult | InitExecutor_shutdownResult => true
  | _ => false
  end.

(** Modelled from the spec: [interfaces::BlockAndHeaderTipInfo] is declared
    in interfaces/node.h, which is not part of the sources at hand; the spec
    describes it as a small record of chain metadata with a header height,
    the one field the worker reads. *)
Record BlockAndHeaderTipInfo := { header_height : Z }.

(** What a call carries: nothing, the [std::vector<std::string>] of
    [commands], or the pair of [initializeResult]. *)
Inductive args :=
  | NoArgs
  | Commands (cmds : list string)
  | InitResult (success : bool) (tip_info : BlockAndHeaderTipInfo).

Definition args_commands (a : args) : list string :=
  match a with Commands l => l | _ => [] end.

Definition args_success (a : args) : bool :=
  match a with InitResult b _ => b | _ => false end.

Definition args_tip (a : args) : BlockAndHeaderTipInfo :=
  match a with InitResult _ t => t | _ => {| header_height := 0 |} end.

(** [connect(sender, signal, receiver, method)]. *)
Record connection := connect {
  c_sender : object;
  c_signal : method;
  c_receiver : object;
  c_method : method
}.

(** ** What a run leaves behind *)

Inductive level := Debug | Critical.

(** The values streamed into one [qDebug()] or [qCritical()] statement. *)
Inductive item :=
  | Text (s : string)
  | ThreadId (t : thread)
  | Num (z : Z).

Inductive extern :=
  | SetupEnvironment
  | SetupServerArgs
  | ParseParameters (error : option string)
  | InitConfig (error : option string)
  | InitLogging
  | InitParameterInteraction
  | NewBitcoinGUI
  | NewNodeWorker
  | NewQThread
  | MoveToThread
  | ThreadStart
  | Sleep (secs : Z)
  | baseInitialize (r : bool)
  | appInitMain (r : bool) (tip_info : BlockAndHeaderTipInfo)
  | appShutdown
  | listRpcCommands (r : list string).

Inductive event :=
  | Log (lvl : level) (msg : list item)
  | Emitted (sig : method) (a : args)
  | Entered (slot : method) (a : args)
  | Ext (f : extern)
  | ExitRequested (code : Z)
  | CloseAccepted
  | CloseIgnored.

Inductive loop_state := NotStarted | Running | Exited (code : Z).

Definition call : Type := method * args.

Record state := mkState {
  connections : list connection;
  node_affinity : thread;        (* m_node->thread() *)
  node_thread_running : bool;    (* m_node_thread->isRunning() *)
  loop : loop_state;             (* the application's event loop *)
  posted_gui : list call;
  posted_node : list call;
  posted_init : list call;
  m_allow_close : bool;          (* BitcoinGUI::m_allow_close *)
  visible : bool;                (* m_window->isVisible() *)
  rpc_calls : nat;               (* listRpcCommands() calls so far *)
  trace : list event
}.

(** [bool m_allow_close = false;] in the class body of BitcoinGUI. *)
Definition init_state : state :=
  {| connections := [];
     node_affinity := GuiThread;
     node_thread_running := false;
     loop := NotStarted;
     posted_gui := [];
     posted_node := [];
     posted_init := [];
     m_allow_close := false;
     visible := false;
     rpc_calls := 0;
     trace := [] |}.

(** ** The surroundings

    Results of the calls into the node, the argument parser and the
    configuration reader.  They are inputs of a run. *)

Inductive exn := StdException (what : string) | OtherException.

Inductive ctor_step :=
  | AtInitConfig | AtInitLogging | AtInitParameterInteraction
  | AtNewBitcoinGUI | AtNewNodeWorker | AtNewQThread | AtThreadStart.

Scheme Equality for ctor_step.

Record env := {
  parse_parameters_error : option string;  (* gArgs.ParseParameters *)
  init_config_error : option string;       (* common::InitConfig *)
  throws : option (ctor_step * exn);       (* the call that throws *)
  base_initialize_result : bool;           (* m_node->baseInitialize() *)
  app_init_result : bool * BlockAndHeaderTipInfo;  (* full initialization *)
  rpc_commands : nat -> list string        (* n-th listRpcCommands() *)
}.

(** ** Primitive updates *)

Definition record (ev : event) (s : state) : state :=
  mkState (connections s) (node_affinity s) (node_thread_running s) (loop s)
          (posted_gui s) (posted_node s) (posted_init s)
          (m_allow_close s) (visible s) (rpc_calls s) (trace s ++ [ev]).

Definition qlog (lvl : level) (msg : list item) : state -> state :=
  record (Log lvl msg).

Definition add_connection (c : connection) (s : state) : state :=
  mkState (connections s ++ [c]) (node_affinity s) (node_thread_running s)
          (loop s) (posted_gui s) (posted_node s) (posted_init s)
          (m_allow_close s) (visible s) (rpc_calls s) (trace s).

Definition set_node_affinity (t : thread) (s : state) : state :=
  mkState (connections s) t (node_thread_running s) (loop s)
          (posted_gui s) (posted_node s) (posted_init s)
          (m_allow_close s) (visible s) (rpc_calls s) (trace s).

Definition set_node_thread_running (b : bool) (s : state) : state :=
  mkState (connections s) (node_affinity s) b (loop s)
          (posted_gui s) (posted_node s) (posted_init s)
          (m_allow_close s) (visible s) (rpc_calls s) (trace s).

Definition set_loop (l : loop_state) (s : state) : state :=
  mkState (connections s) (node_affinity s) (node_thread_running s) l
          (posted_gui s) (posted_node s) (posted_init s)
          (m_allow_close s) (visible s) (rpc_calls s) (trace s).

Definition set_allow_close (b : bool) (s : state) : state :=
  mkState (connections s) (node_affinity s) (node_thread_running s) (loop s)
          (posted_gui s) (posted_node s) (posted_init s)
          b (visible s) (rpc_calls s) (trace s).

Definition set_visible (b : bool) (s : state) : state :=
  mkState (connections s) (node_affinity s) (node_thread_running s) (loop s)
          (posted_gui s) (posted_node s) (posted_init s)
          (m_allow_close s) b (rpc_calls s) (trace s).

Definition count_rpc_call (s : state) : state :=
  mkState (connections s) (node_affinity s) (node_thread_running s) (loop s)
          (posted_gui s) (posted_node s) (posted_init s)
          (m_allow_close s) (visible s) (S (rpc_calls s)) (trace s).

Definition queue_of (t : thread) (s : state) : list call :=
  match t with
  | GuiThread => posted_gui s
  | NodeThread => posted_node s
  | InitThread => posted_init s
  end.

Definition set_queue (t : thread) (q : list call) (s : state) : state :=
  match t with
  | GuiThread =>
      mkState (connections s) (node_affinity s) (node_thread_running s)
              (loop s) q (posted_node s) (posted_init s)
              (m_allow_close s) (visible s) (rpc_calls s) (trace s)
  | NodeThread =>
      mkState (connections s) (node_affinity s) (node_thread_running s)
              (loop s) (posted_gui s) q (posted_init s)
              (m_allow_close s) (visible s) (rpc_calls s) (trace s)
  | InitThread =>
      mkState (connections s) (node_affinity s) (node_thread_running s)
              (loop s) (posted_gui s) (posted_node s) q
              (m_allow_close s) (visible s) (rpc_calls s) (trace s)
  end.

(** A queued call goes to the back of the receiving thread's queue. *)
Definition post (t : thread) (c : call) (s : state) : state :=
  set_queue t (queue_of t s ++ [c]) s.

(** [QObject::thread()].  Only the worker is ever moved; the executor is a
    plain member of the worker, not a QObject child, so it stays on the
    thread that built it. *)
Definition thread_of (s : state) (o : object) : thread :=
  match o with
  | Worker => node_affinity s
  | Context => InitThread
  | Button | Window | Controller | Executor => GuiThread
  end.

(** [QCoreApplication::exit(code)]: the running event loop is told to leave
    and [exec()] will return [code].  Qt documents that the call does nothing
    when no event loop is running; it always returns to its caller.  A loop
    that is already leaving keeps the code it was given first. *)
Definition QCoreApplication_exit (code : Z) (s : state) : state :=
  let s := record (ExitRequested code) s in
  set_loop match loop s with
           | Running => Exited code
           | NotStarted => NotStarted
           | Exited first => Exited first
           end s.

(** ** Signal activation and the slot bodies *)

Definition connected_to (sig : method) (s : state) : list connection :=
  filter (fun c => method_beq (c_signal c) sig) (connections s).

(** Qt's automatic connection type, decided when the signal is emitted. *)
Definition activate (invoke_direct : method -> args -> state -> state)
    (cur : thread) (sig : method) (a : args) (s : state) : state :=
  fold_left
    (fun s c =>
       let t := thread_of s (c_receiver c) in
       if thread_beq t cur then invoke_direct (c_method c) a s
       else post t (c_method c, a) s)
    (connected_to sig s)
    (record (Emitted sig a) s).

(** Modelled from the spec: minta/initexecutor.h, the header of
    [InitExecutor], is not among the sources.  The spec gives the executor an
    asynchronous initialize() and a shutdown() with an asynchronous
    completion signal: either call only hands a job to the executor's own
    thread and returns. *)
Definition InitExecutor_hand_over (job : method) (s : state) : state :=
  post InitThread (job, NoArgs) s.

(** Modelled from the spec: the job behind [InitExecutor::initialize] runs
    full initialization and yields (success, tipInfo) through the executor's
    [initializeResult] signal.  [emit] is the call of a signal. *)
Definition Context_initialize_job (emit : method -> args -> state -> state)
    (e : env) (s : state) : state :=
  let '(rv, tip_info) := app_init_result e in
  let s := record (Ext (appInitMain rv tip_info)) s in
  emit InitExecutor_initializeResult (InitResult rv tip_info) s.

(** Modelled from the spec: the job behind [InitExecutor::shutdown] shuts the
    node down and signals completion through [shutdownResult]. *)
Definition Context_shutdown_job (emit : method -> args -> state -> state)
    (s : state) : state :=
  let s := record (Ext appShutdown) s in
  emit InitExecutor_shutdownResult NoArgs s.

(** [invoke fuel e cur m a s]: member function [m] runs on thread [cur] with
    arguments [a].  A signal is a member function too: calling it (Q_EMIT)
    activates its connections.  [fuel] bounds the nesting of direct
    calls. *)
Fixpoint invoke (fuel : nat) (e : env) (cur : thread) (m : method) (a : args)
    (s : state) : state :=
  match fuel with
  | O => s
  | S fuel' =>
    let call := invoke fuel' e cur in
    if is_signal m then activate (invoke fuel' e cur) cur m a s
    else
    let s := record (Entered m a) s in
    match m with
    (* bitcoingui.cpp *)
    | BitcoinGUI_doClose =>
        let s := set_allow_close true s in
        QCoreApplication_exit 0 s
    | BitcoinGUI_rcvCommands =>
        fold_left (fun s cmd => qlog Debug [Text cmd] s) (args_commands a) s
    | QMainWindow_show =>
        set_visible true s
    (* controller.cpp *)
    | NodeWorker_baseInitNode =>
        let s := qlog Debug [Text "NodeController::baseInitNode() "] s in
        let baseInit := base_initialize_result e in
        let s := record (Ext (baseInitialize baseInit)) s in
        if baseInit then call NodeWorker_baseInitSuccess NoArgs s
        else call NodeWorker_baseInitFail NoArgs s
    | NodeWorker_initNode =>
        let s := qlog Debug [Text "NodeController::initNode() "] s in
        call InitExecutor_initialize NoArgs s
    | NodeWorker_initializeResult =>
        let s := qlog Debug
                   [Text "NodeController::initializeResult() => header_height:";
                    Num (header_height (args_tip a))] s in
        if args_success a then call NodeWorker_initSuccess NoArgs s
        else call NodeWorker_initFail NoArgs s
    | NodeWorker_onBaseInitFail =>
        let s := qlog Debug
                   [Text "NodeController::onBaseInitFail() "; ThreadId cur] s in
        QCoreApplication_exit 1 s
    | NodeWorker_onInitFail =>
        let s := qlog Debug
                   [Text "NodeController::onInitFail() "; ThreadId cur] s in
        QCoreApplication_exit 1 s
    | NodeWorker_onShutdown =>
        call NodeWorker_shutdown NoArgs s
    | NodeWorker_quitApplication =>
        let s := record (Ext (Sleep 3)) s in
        QCoreApplication_exit 0 s
    | NodeWorker_listCommands =>
        let s := qlog Debug
                   [Text "NodeController::listCommands()"; ThreadId cur] s in
        let res := rpc_commands e (rpc_calls s) in
        let s := record (Ext (listRpcCommands res)) (count_rpc_call s) in
        call NodeWorker_commands (Commands res) s
    (* minta/initexecutor.h *)
    | InitExecutor_initialize => InitExecutor_hand_over Context_initialize s
    | InitExecutor_shutdown => InitExecutor_hand_over Context_shutdown s
    | Context_initialize => Context_initialize_job call e s
    | Context_shutdown => Context_shutdown_job call s
    | _ => s
    end
  end.

(** Direct calls nest at most five deep in this program (a signal, the slot
    it reaches, the signal that slot emits, the slot reached in turn, the
    call that slot makes); see [call_depth_enough]. *)
Definition call_depth : nat := 6.

(** [BitcoinGUI::closeEvent].  Qt hides a window whose close event was
    accepted and leaves it as it is when the event was ignored. *)
Definition BitcoinGUI_closeEvent (e : env) (s : state) : state :=
  let s := invoke call_depth e GuiThread BitcoinGUI_quitRequested NoArgs s in
  if m_allow_close s
  then set_visible false (record CloseAccepted s)   (* ev->accept() *)
  else record CloseIgnored s.                       (* ev->ignore() *)

(** ** Threads taking turns *)

Inductive action :=
  | Deliver (t : thread)   (* thread [t] handles the next call posted to it *)
  | Click                  (* the user presses m_button *)
  | CloseRequest.          (* the window receives a QCloseEvent *)

Definition deliver (e : env) (t : thread) (s : state) : state :=
  match queue_of t s with
  | [] => s
  | (m, a) :: q => invoke call_depth e t m a (set_queue t q s)
  end.

(** The GUI thread handles events once [exec()] has been entered; events
    already pending may still be handled after an exit request.  The worker's
    thread handles events once started; the executor starts its own. *)
Definition thread_active (t : thread) (s : state) : bool :=
  match t with
  | GuiThread => match loop s with NotStarted => false | _ => true end
  | NodeThread => node_thread_running s
  | InitThread => true
  end.

Definition step (e : env) (a : action) (s : state) : state :=
  match a with
  | Deliver t => if thread_active t s then deliver e t s else s
  | Click =>
      if thread_active GuiThread s
      then invoke call_depth e GuiThread Button_clicked NoArgs s
      else s
  | CloseRequest =>
      if thread_active GuiThread s then BitcoinGUI_closeEvent e s else s
  end.

Definition run (e : env) (sched : list action) (s : state) : state :=
  fold_left (fun s a => step e a s) sched s.

(** ** Constructors *)

(** A constructor either completes or is left by an exception, which carries
    the state reached when it was thrown.  [throws e] names the first call
    of the constructor that throws, if one does. *)
Definition result : Type := (exn * state) + state.

Definition bind (r : result) (k : state -> result) : result :=
  match r with
  | inl x => inl x
  | inr s => k s
  end.

Notation "x <- r ;; k" := (bind r (fun x => k))
  (at level 61, r at next level, right associativity).

Definition may_throw (e : env) (p : ctor_step) (f : extern) (s : state)
  : result :=
  match throws e with
  | Some (p', x) =>
      if ctor_step_beq p p' then inl (x, s) else inr (record (Ext f) s)
  | None => inr (record (Ext f) s)
  end.

(** [BitcoinGUI::BitcoinGUI]: the button, its column, one connection. *)
Definition BitcoinGUI_ctor (s : state) : state :=
  add_connection (connect Button Button_clicked Window BitcoinGUI_listCommands)
                 s.

(** [NodeWorker::NodeWorker]: the node, the chain, the executor and seven
    connections, [initializeResult] among them twice. *)
Definition NodeWorker_ctor (s : state) : state :=
  let s := add_connection
    (connect Worker NodeWorker_shutdown Executor InitExecutor_shutdown) s in
  let s := add_connection
    (connect Worker NodeWorker_baseInitSuccess Worker NodeWorker_initNode) s in
  let s := add_connection
    (connect Worker NodeWorker_baseInitFail Worker NodeWorker_onBaseInitFail)
    s in
  let s := add_connection
    (connect Worker NodeWorker_initFail Worker NodeWorker_onInitFail) s in
  let s := add_connection
    (connect Executor InitExecutor_initializeResult
             Worker NodeWorker_initializeResult) s in
  let s := add_connection
    (connect Executor InitExecutor_initializeResult
             Worker NodeWorker_initializeResult) s in
  add_connection
    (connect Executor InitExecutor_shutdownResult
             Worker NodeWorker_shutdownResult) s.

(** [GuiController::GuiController]. *)
Definition GuiController_ctor (e : env) (s : state) : result :=
  let s := qlog Debug
             [Text "GuiController::GuiController()"; ThreadId GuiThread] s in
  s <- may_throw e AtInitConfig (InitConfig (init_config_error e)) s ;;
  let s :=
    match init_config_error e with
    | Some error =>
        let s := qlog Critical
                   [Text "Fail to open bitcoin.conf:"; Text error] s in
        QCoreApplication_exit 1 s
    | None => s
    end in
  s <- may_throw e AtInitLogging InitLogging s ;;
  s <- may_throw e AtInitParameterInteraction InitParameterInteraction s ;;
  s <- may_throw e AtNewBitcoinGUI NewBitcoinGUI s ;;
  let s := BitcoinGUI_ctor s in
  s <- may_throw e AtNewNodeWorker NewNodeWorker s ;;
  let s := NodeWorker_ctor s in
  s <- may_throw e AtNewQThread NewQThread s ;;
  let s := add_connection
    (connect Window BitcoinGUI_listCommands Worker NodeWorker_listCommands)
    s in
  let s := add_connection
    (connect Worker NodeWorker_commands Window BitcoinGUI_rcvCommands) s in
  let s := add_connection
    (connect Window BitcoinGUI_quitRequested Worker NodeWorker_onShutdown)
    s in
  let s := add_connection
    (connect Worker NodeWorker_shutdownResult Window BitcoinGUI_doClose) s in
  let s := add_connection
    (connect Controller GuiController_initNode Worker NodeWorker_baseInitNode)
    s in
  let s := add_connection
    (connect Worker NodeWorker_initSuccess Window QMainWindow_show) s in
  let s := set_node_affinity NodeThread (record (Ext MoveToThread) s) in
  s <- may_throw e AtThreadStart ThreadStart s ;;
  let s := set_node_thread_running true s in
  let s := invoke call_depth e GuiThread GuiController_initNode NoArgs s in
  inr (qlog Debug [Text "GuiController::GuiController() ended";
                   ThreadId GuiThread] s).

(** ** GuiMain *)

(** The state in which the controller is constructed. *)
Definition main_state : state :=
  record (Ext (ParseParameters None))
    (record (Ext SetupServerArgs) (record (Ext SetupEnvironment) init_state)).

Definition EXIT_SUCCESS : Z := 0.
Definition EXIT_FAILURE : Z := 1.

(** [QApplication::exec()]: the loop runs; the value is the code of the exit
    request that ended it, or nothing while no such request has been made. *)
Definition QApplication_exec (e : env) (sched : list action) (s : state)
  : option Z * state :=
  let s := run e sched (set_loop Running s) in
  (match loop s with Exited code => Some code | _ => None end, s).

(** [GuiMain].  [pre] is what the other threads do between the start of the
    worker's thread and the entry into [exec()], [sched] what happens while
    the loop runs.  The result is [None] while [exec()] has not returned. *)
Definition GuiMain (e : env) (pre sched : list action) : option Z * state :=
  let s := record (Ext SetupEnvironment) init_state in
  let s := record (Ext SetupServerArgs) s in
  match parse_parameters_error e with
  | Some error =>
      let s := record (Ext (ParseParameters (Some error))) s in
      (Some EXIT_FAILURE,
       qlog Critical [Text "fail to parse args: "; Text error] s)
  | None =>
      let s := record (Ext (ParseParameters None)) s in
      match GuiController_ctor e s with
      | inr s =>
          match QApplication_exec e sched (run e pre s) with
          | (Some _, s) => (Some EXIT_SUCCESS, s)
          | (None, s) => (None, s)
          end
      | inl (StdException what, s) =>
          (Some EXIT_FAILURE, qlog Critical [Text what] s)
      | inl (OtherException, s) =>
          (Some EXIT_FAILURE, qlog Critical [Text "Runaway Exception"] s)
      end
  end.

(** ** Sample surroundings *)

Definition tip0 : BlockAndHeaderTipInfo := {| header_height := 840000 |}.

Definition sample_commands : list string := ["getblockcount"; "help"; "stop"].

Definition env_ok : env :=
  {| parse_parameters_error := None;
     init_config_error := None;
     throws := None;
     base_initialize_result := true;
     app_init_result := (true, tip0);
     rpc_commands := fun _ => sample_commands |}.

Definition env_bad_config : env :=
  {| parse_parameters_error := None;
     init_config_error := Some "parse error on line 1";
     throws := None;
     base_initialize_result := true;
     app_init_result := (true, tip0);
     rpc_commands := fun _ => sample_commands |}.

Definition env_base_fail : env :=
  {| parse_parameters_error := None;
     init_config_error := None;
     throws := None;
     base_initialize_result := false;
     app_init_result := (true, tip0);
     rpc_commands := fun _ => sample_commands |}.

Definition env_init_fail : env :=
  {| parse_parameters_error := None;
     init_config_error := None;
     throws := None;
     base_initialize_result := true;
     app_init_result := (false, tip0);
     rpc_commands := fun _ => sample_commands |}.

(** Start-up to a shown window, one click answered, then close and the
    shutdown handshake. *)
Definition startup : list action :=
  [Deliver NodeThread; Deliver InitThread;
   Deliver NodeThread; Deliver NodeThread;
   Deliver GuiThread; Deliver GuiThread].

Definition click_round : list action :=
  [Click; Deliver NodeThread; Deliver GuiThread].

Definition close_round : list action :=
  [CloseRequest; Deliver NodeThread; Deliver GuiThread; Deliver InitThread;
   Deliver NodeThread; Deliver GuiThread].

(** ** The wiring the constructors leave behind *)

Definition wiring : list connection :=
  [ connect Button Button_clicked Window BitcoinGUI_listCommands;
    connect Worker NodeWorker_shutdown Executor InitExecutor_shutdown;
    connect Worker NodeWorker_baseInitSuccess Worker NodeWorker_initNode;
    connect Worker NodeWorker_baseInitFail Worker NodeWorker_onBaseInitFail;
    connect Worker NodeWorker_initFail Worker NodeWorker_onInitFail;
    connect Executor InitExecutor_initializeResult
            Worker NodeWorker_initializeResult;
    connect Executor InitExecutor_initializeResult
            Worker NodeWorker_initializeResult;
    connect Executor InitExecutor_shutdownResult
            Worker NodeWorker_shutdownResult;
    connect Window BitcoinGUI_listCommands Worker NodeWorker_listCommands;
    connect Worker NodeWorker_commands Window BitcoinGUI_rcvCommands;
    connect Window BitcoinGUI_quitRequested Worker NodeWorker_onShutdown;
    connect Worker NodeWorker_shutdownResult Window BitcoinGUI_doClose;
    connect Controller GuiController_initNode Worker NodeWorker_baseInitNode;
    connect Worker NodeWorker_initSuccess Window QMainWindow_show ].

Definition wired (s : state) : Prop :=
  connections s = wiring /\
  node_affinity s = NodeThread /\
  node_thread_running s = true.

(** Several events appended at once. *)
Definition records (evs : list event) (s : state) : state :=
  mkState (connections s) (node_affinity s) (node_thread_running s) (loop s)
          (posted_gui s) (posted_node s) (posted_init s)
          (m_allow_close s) (visible s) (rpc_calls s) (trace s ++ evs).

Definition log_command (cmd : string) : event := Log Debug [Text cmd].

(** ** One step, case by case

    What a step does once the wiring is in place, with the dispatch through
    the connection table carried out.  [step_transition] shows that [step]
    takes exactly these transitions. *)

Definition gui_call (c : call) : bool :=
  match fst c with
  | QMainWindow_show | BitcoinGUI_doClose | BitcoinGUI_rcvCommands
  | InitExecutor_shutdown => true
  | _ => false
  end.

Definition node_call (c : call) : bool :=
  match fst c with
  | NodeWorker_baseInitNode | NodeWorker_listCommands | NodeWorker_onShutdown
  | NodeWorker_initializeResult | NodeWorker_shutdownResult => true
  | _ => false
  end.

Definition init_call (c : call) : bool :=
  match fst c with
  | Context_initialize | Context_shutdown => true
  | _ => false
  end.

(** Each queue holds only calls that the wiring can post to it. *)
Definition queues_ok (s : state) : Prop :=
  forallb gui_call (posted_gui s) = true /\
  forallb node_call (posted_node s) = true /\
  forallb init_call (posted_init s) = true.

Definition started (s : state) : Prop := loop s <> NotStarted.

Inductive transition (e : env) (s : state) : action -> state -> Prop :=
  | T_idle a :
      transition e s a s
  (* the GUI thread *)
  | T_show a q :
      started s -> posted_gui s = (QMainWindow_show, a) :: q ->
      transition e s (Deliver GuiThread)
        (set_visible true
           (records [Entered QMainWindow_show a] (set_queue GuiThread q s)))
  | T_doClose a q :
      started s -> posted_gui s = (BitcoinGUI_doClose, a) :: q ->
      transition e s (Deliver GuiThread)
        (QCoreApplication_exit 0
           (set_allow_close true
              (records [Entered BitcoinGUI_doClose a]
                 (set_queue GuiThread q s))))
  | T_rcvCommands a q :
      started s -> posted_gui s = (BitcoinGUI_rcvCommands, a) :: q ->
      transition e s (Deliver GuiThread)
        (records (Entered BitcoinGUI_rcvCommands a
                    :: map log_command (args_commands a))
           (set_queue GuiThread q s))
  | T_executor_shutdown a q :
      started s -> posted_gui s = (InitExecutor_shutdown, a) :: q ->
      transition e s (Deliver GuiThread)
        (post InitThread (Context_shutdown, NoArgs)
           (records [Entered InitExecutor_shutdown a]
              (set_queue GuiThread q s)))
  | T_click :
      started s ->
      transition e s Click
        (post NodeThread (NodeWorker_listCommands, NoArgs)
           (records [Emitted Button_clicked NoArgs;
                     Emitted BitcoinGUI_listCommands NoArgs] s))
  | T_close_ignored :
      started s -> m_allow_close s = false ->
      transition e s CloseRequest
        (records [CloseIgnored]
           (post NodeThread (NodeWorker_onShutdown, NoArgs)
              (records [Emitted BitcoinGUI_quitRequested NoArgs] s)))
  | T_close_accepted :
      started s -> m_allow_close s = true ->
      transition e s CloseRequest
        (set_visible false
           (records [CloseAccepted]
              (post NodeThread (NodeWorker_onShutdown, NoArgs)
                 (records [Emitted BitcoinGUI_quitRequested NoArgs] s))))
  (* the worker's thread *)
  | T_baseInit_ok a q :
      posted_node s = (NodeWorker_baseInitNode, a) :: q ->
      base_initialize_result e = true ->
      transition e s (Deliver NodeThread)
        (post InitThread (Context_initialize, NoArgs)
           (records [Entered NodeWorker_baseInitNode a;
                     Log Debug [Text "NodeController::baseInitNode() "];
                     Ext (baseInitialize true);
                     Emitted NodeWorker_baseInitSuccess NoArgs;
                     Entered NodeWorker_initNode NoArgs;
                     Log Debug [Text "NodeController::initNode() "];
                     Entered InitExecutor_initialize NoArgs]
              (set_queue NodeThread q s)))
  | T_baseInit_fail a q :
      posted_node s = (NodeWorker_baseInitNode, a) :: q ->
      base_initialize_result e = false ->
      transition e s (Deliver NodeThread)
        (QCoreApplication_exit 1
           (records [Entered NodeWorker_baseInitNode a;
                     Log Debug [Text "NodeController::baseInitNode() "];
                     Ext (baseInitialize false);
                     Emitted NodeWorker_baseInitFail NoArgs;
                     Entered NodeWorker_onBaseInitFail NoArgs;
                     Log Debug [Text "NodeController::onBaseInitFail() ";
                                ThreadId NodeThread]]
              (set_queue NodeThread q s)))
  | T_listCommands a q :
      posted_node s = (NodeWorker_listCommands, a) :: q ->
      transition e s (Deliver NodeThread)
        (post GuiThread
           (BitcoinGUI_rcvCommands, Commands (rpc_commands e (rpc_calls s)))
           (records [Entered NodeWorker_listCommands a;
                     Log Debug [Text "NodeController::listCommands()";
                                ThreadId NodeThread];
                     Ext (listRpcCommands (rpc_commands e (rpc_calls s)));
                     Emitted NodeWorker_commands
                       (Commands (rpc_commands e (rpc_calls s)))]
              (count_rpc_call (set_queue NodeThread q s))))
  | T_onShutdown a q :
      posted_node s = (NodeWorker_onShutdown, a) :: q ->
      transition e s (Deliver NodeThread)
        (post GuiThread (InitExecutor_shutdown, NoArgs)
           (records [Entered NodeWorker_onShutdown a;
                     Emitted NodeWorker_shutdown NoArgs]
              (set_queue NodeThread q s)))
  | T_initializeResult_ok a q :
      posted_node s = (NodeWorker_initializeResult, a) :: q ->
      args_success a = true ->
      transition e s (Deliver NodeThread)
        (post GuiThread (QMainWindow_show, NoArgs)
           (records [Entered NodeWorker_initializeResult a;
                     Log Debug
                       [Text "NodeController::initializeResult() => header_height:";
                        Num (header_height (args_tip a))];
                     Emitted NodeWorker_initSuccess NoArgs]
              (set_queue NodeThread q s)))
  | T_initializeResult_fail a q :
      posted_node s = (NodeWorker_initializeResult, a) :: q ->
      args_success a = false ->
      transition e s (Deliver NodeThread)
        (QCoreApplication_exit 1
           (records [Entered NodeWorker_initializeResult a;
                     Log Debug
                       [Text "NodeController::initializeResult() => header_height:";
                        Num (header_height (args_tip a))];
                     Emitted NodeWorker_initFail NoArgs;
                     Entered NodeWorker_onInitFail NoArgs;
                     Log Debug [Text "NodeController::onInitFail() ";
                                ThreadId NodeThread]]
              (set_queue NodeThread q s)))
  | T_shutdownResult a q :
      posted_node s = (NodeWorker_shutdownResult, a) :: q ->
      transition e s (Deliver NodeThread)
        (post GuiThread (BitcoinGUI_doClose, a)
           (records [Emitted NodeWorker_shutdownResult a]
              (set_queue NodeThread q s)))
  (* the executor's thread *)
  | T_context_initialize a q :
      posted_init s = (Context_initialize, a) :: q ->
      transition e s (Deliver InitThread)
        (let r := InitResult (fst (app_init_result e))
                             (snd (app_init_result e)) in
         post NodeThread (NodeWorker_initializeResult, r)
           (post NodeThread (NodeWorker_initializeResult, r)
              (records [Entered Context_initialize a;
                        Ext (appInitMain (fst (app_init_result e))
                                         (snd (app_init_result e)));
                        Emitted InitExecutor_initializeResult r]
                 (set_queue InitThread q s))))
  | T_context_shutdown a q :
      posted_init s = (Context_shutdown, a) :: q ->
      transition e s (Deliver InitThread)
        (post NodeThread (NodeWorker_shutdownResult, NoArgs)
           (records [Entered Context_shutdown a;
                     Ext appShutdown;
                     Emitted InitExecutor_shutdownResult NoArgs]
              (set_queue InitThread q s))).

(** What [GuiMain] returns once the controller has been constructed: the
    value of [exec()] is dropped. *)
Definition exec_result (s : state) : option Z :=
  match loop s with
  | Exited _ => Some EXIT_SUCCESS
  | NotStarted | Running => None
  end.

Definition env_bad_args : env :=
  {| parse_parameters_error := Some "Invalid parameter -foo";
     init_config_error := None;
     throws := None;
     base_initialize_result := true;
     app_init_result := (true, tip0);
     rpc_commands := fun _ => sample_commands |}.

Definition env_throw : env :=
  {| parse_parameters_error := None;
     init_config_error := None;
     throws := Some (AtNewNodeWorker, StdException "std::bad_alloc");
     base_initialize_result := true;
     app_init_result := (true, tip0);
     rpc_commands := fun _ => sample_commands |}.

(** The same surroundings with a configuration file that parses. *)
Definition without_config_error (e : env) : env :=
  {| parse_parameters_error := parse_parameters_error e;
     init_config_error := None;
     throws := throws e;
     base_initialize_result := base_initialize_result e;
     app_init_result := app_init_result e;
     rpc_commands := rpc_commands e |}.

(** Two states that differ at most in their traces. *)
Definition same_but_trace (s s' : state) : Prop :=
  connections s = connections s' /\
  node_affinity s = node_affinity s' /\
  node_thread_running s = node_thread_running s' /\
  loop s = loop s' /\
  posted_gui s = posted_gui s' /\
  posted_node s = posted_node s' /\
  posted_init s = posted_init s' /\
  m_allow_close s = m_allow_close s' /\
  visible s = visible s' /\
  rpc_calls s = rpc_calls s'.

(** What the constructor does after reading the configuration. *)
Definition construction_after_config : list event :=
  [Ext InitLogging; Ext InitParameterInteraction;
   Ext NewBitcoinGUI; Ext NewNodeWorker; Ext NewQThread;
   Ext MoveToThread; Ext ThreadStart;
   Emitted GuiController_initNode NoArgs;
   Log Debug [Text "GuiController::GuiController() ended";
              ThreadId GuiThread]].



(** ** Reading a trace *)

Definition isBaseInitTrue (ev : event) : bool :=
  match ev with Ext (baseInitialize true) => true | _ => false end.

Definition isExecutorInitialize (ev : event) : bool :=
  match ev with Entered InitExecutor_initialize _ => true | _ => false end.

Definition isInitResultOk (ev : event) : bool :=
  match ev with
  | Entered NodeWorker_initializeResult (InitResult true _) => true
  | _ => false
  end.

Definition isInitSuccess (ev : event) : bool :=
  match ev with Emitted NodeWorker_initSuccess _ => true | _ => false end.

Definition isShow (ev : event) : bool :=
  match ev with Entered QMainWindow_show _ => true | _ => false end.

Definition isShutdownAck (ev : event) : bool :=
  match ev with Emitted NodeWorker_shutdownResult _ => true | _ => false end.

Definition isDoClose (ev : event) : bool :=
  match ev with Entered BitcoinGUI_doClose _ => true | _ => false end.

Definition isCloseAccepted (ev : event) : bool :=
  match ev with CloseAccepted => true | _ => false end.

Definition isCloseIgnored (ev : event) : bool :=
  match ev with CloseIgnored => true | _ => false end.

Definition isBaseInitCall (ev : event) : bool :=
  match ev with Ext (baseInitialize _) => true | _ => false end.

Definition isBaseInitNodeCall (c : call) : bool :=
  match fst c with NodeWorker_baseInitNode => true | _ => false end.

Definition count {A} (P : A -> bool) (l : list A) : nat :=
  List.length (filter P l).

Definition isExit (code : Z) (ev : event) : bool :=
  match ev with ExitRequested c => Z.eqb c code | _ => false end.

(** [each_after P Q want seen tr]: at every [Q]-event of [tr], whether a
    [P]-event has occurred earlier ([seen] tells for the part before [tr])
    is [want]. *)
Fixpoint each_after (P Q : event -> bool) (want seen : bool)
    (tr : list event) : bool :=
  match tr with
  | [] => true
  | ev :: tr' =>
      (if Q ev then Bool.eqb seen want else true)
      && each_after P Q want (seen || P ev) tr'
  end.

(** [always_after P Q tr]: every [Q]-event has a [P]-event before it. *)
Definition always_after (P Q : event -> bool) (tr : list event) : Prop :=
  forall pre ev post,
    tr = pre ++ ev :: post -> Q ev = true ->
    exists ev', In ev' pre /\ P ev' = true.

(** [never_after P Q tr]: no [Q]-event has a [P]-event before it. *)
Definition never_after (P Q : event -> bool) (tr : list event) : Prop :=
  forall pre ev post,
    tr = pre ++ ev :: post -> Q ev = true ->
    forall ev', In ev' pre -> P ev' = false.

(** [next_is P N tr]: every [P]-event is directly followed by an
    [N]-event. *)
Fixpoint next_is (P N : event -> bool) (tr : list event) : bool :=
  match tr with
  | [] => true
  | ev :: tr' =>
      (if P ev then match tr' with ev' :: _ => N ev' | [] => false end
       else true)
      && next_is P N tr'
  end.

(** ** What holds of every state of a run *)

Record safe (e : env) (s : state) : Prop := {
  safe_base :
    existsb isBaseInitTrue (trace s) = true ->
    base_initialize_result e = true;
  safe_success :
    existsb isInitSuccess (trace s) = true ->
    fst (app_init_result e) = true;
  safe_allow : m_allow_close s = existsb isDoClose (trace s);
  safe_visible : visible s = true -> existsb isShow (trace s) = true;
  safe_exited :
    existsb isDoClose (trace s) = true -> exists c, loop s = Exited c;
  safe_exec_after_base :
    each_after isBaseInitTrue isExecutorInitialize true false (trace s) = true;
  safe_success_after_result :
    each_after isInitResultOk isInitSuccess true false (trace s) = true;
  safe_show_after_success :
    each_after isInitSuccess isShow true false (trace s) = true;
  safe_doClose_after_ack :
    each_after isShutdownAck isDoClose true false (trace s) = true;
  safe_accept_after_doClose :
    each_after isDoClose isCloseAccepted true false (trace s) = true;
  safe_ignore_before_doClose :
    each_after isDoClose isCloseIgnored false false (trace s) = true;
  safe_doClose_exits : next_is isDoClose (isExit 0) (trace s) = true;
  safe_base_once :
    count isBaseInitCall (trace s) + count isBaseInitNodeCall (posted_node s)
    <= 1;
  safe_exec_once :
    count isExecutorInitialize (trace s) <= count isBaseInitCall (trace s)
}.

(** Once the controller is constructed, the wiring is complete and what the
    queues hold is accounted for by the trace. *)
Record inv (e : env) (s : state) : Prop := {
  inv_wired : wired s;
  inv_queues : queues_ok s;
  inv_results : forall a,
    In (NodeWorker_initializeResult, a) (posted_node s) ->
    a = InitResult (fst (app_init_result e)) (snd (app_init_result e));
  inv_show_queued : forall a,
    In (QMainWindow_show, a) (posted_gui s) ->
    existsb isInitSuccess (trace s) = true;
  inv_doClose_queued : forall a,
    In (BitcoinGUI_doClose, a) (posted_gui s) ->
    existsb isShutdownAck (trace s) = true;
  inv_safe : safe e s
}.

(** ** More to read in a trace *)

Definition isQuitRequested (ev : event) : bool :=
  match ev with Emitted BitcoinGUI_quitRequested _ => true | _ => false end.

Definition isAppShutdown (ev : event) : bool :=
  match ev with Ext appShutdown => true | _ => false end.

Definition isQuitApplication (ev : event) : bool :=
  match ev with Entered NodeWorker_quitApplication _ => true | _ => false end.

Definition isClick (ev : event) : bool :=
  match ev with Emitted Button_clicked _ => true | _ => false end.

Definition isListRpc (ev : event) : bool :=
  match ev with Ext (listRpcCommands _) => true | _ => false end.

Definition isRcvCommands (ev : event) : bool :=
  match ev with Entered BitcoinGUI_rcvCommands _ => true | _ => false end.

Definition isInitNode (ev : event) : bool :=
  match ev with Emitted GuiController_initNode _ => true | _ => false end.

(** An exit request asks for code 0 or code 1. *)
Definition exit_code_ok (ev : event) : bool :=
  match ev with
  | ExitRequested code => Z.eqb code 0 || Z.eqb code 1
  | _ => true
  end.

(** A log entry that streams [QThread::currentThreadId()] after its text:
    the worker's slots (their texts start with NodeController::) on the
    worker's thread, the controller's constructor on the GUI thread. *)
Definition thread_logged_ok (ev : event) : bool :=
  match ev with
  | Log _ [Text s; ThreadId t] =>
      if String.prefix "NodeController::" s
      then thread_beq t NodeThread
      else thread_beq t GuiThread
  | _ => true
  end.

Definition isOnShutdownCall (c : call) : bool :=
  match fst c with NodeWorker_onShutdown => true | _ => false end.

Definition isExecutorShutdownCall (c : call) : bool :=
  match fst c with InitExecutor_shutdown => true | _ => false end.

Definition isContextShutdownCall (c : call) : bool :=
  match fst c with Context_shutdown => true | _ => false end.

Definition isListCommandsCall (c : call) : bool :=
  match fst c with NodeWorker_listCommands => true | _ => false end.

(** Whenever [rcvCommands] has run, it was given a list that
    [listRpcCommands()] had returned before, and it logged that list, entry
    by entry, before anything else happened. *)
Definition logged_as_returned (tr : list event) : Prop :=
  forall p a q,
    tr = p ++ Entered BitcoinGUI_rcvCommands a :: q ->
    exists l q',
      a = Commands l /\
      In (Ext (listRpcCommands l)) p /\
      q = map log_command l ++ q'.

Definition is_deliver (a : action) : bool :=
  match a with Deliver _ => true | Click | CloseRequest => false end.

Definition quiet (s : state) : Prop :=
  posted_gui s = [] /\ posted_node s = [] /\ posted_init s = [].

(** What the shutdown handshake appends to the trace. *)
Definition handshake_events (allowed : bool) : list event :=
  [Emitted BitcoinGUI_quitRequested NoArgs;
   if allowed then CloseAccepted else CloseIgnored;
   Entered NodeWorker_onShutdown NoArgs;
   Emitted NodeWorker_shutdown NoArgs;
   Entered InitExecutor_shutdown NoArgs;
   Entered Context_shutdown NoArgs;
   Ext appShutdown;
   Emitted InitExecutor_shutdownResult NoArgs;
   Emitted NodeWorker_shutdownResult NoArgs;
   Entered BitcoinGUI_doClose NoArgs;
   ExitRequested 0].

(** ** What else holds of every state of a run *)

Record more (e : env) (s : state) : Prop := {
  more_quit_node :
    existsb isOnShutdownCall (posted_node s) = true ->
    existsb isQuitRequested (trace s) = true;
  more_quit_gui :
    existsb isExecutorShutdownCall (posted_gui s) = true ->
    existsb isQuitRequested (trace s) = true;
  more_quit_init :
    existsb isContextShutdownCall (posted_init s) = true ->
    existsb isQuitRequested (trace s) = true;
  more_shutdown_after_quit :
    each_after isQuitRequested isAppShutdown true false (trace s) = true;
  more_exit0_after_doClose :
    each_after isDoClose (isExit 0) true false (trace s) = true;
  more_no_quitApplication : existsb isQuitApplication (trace s) = false;
  more_exit1 :
    existsb (isExit 1) (trace s) = true ->
    init_config_error e <> None \/
    base_initialize_result e = false \/
    fst (app_init_result e) = false;
  more_exit_codes : forallb exit_code_ok (trace s) = true;
  more_threads : forallb thread_logged_ok (trace s) = true;
  more_quit_count :
    count isQuitRequested (trace s)
    = count isCloseAccepted (trace s) + count isCloseIgnored (trace s);
  more_clicks :
    count isListRpc (trace s) + count isListCommandsCall (posted_node s)
    <= count isClick (trace s);
  more_rpc_calls : rpc_calls s = count isListRpc (trace s);
  more_rcv_queued : forall a,
    In (BitcoinGUI_rcvCommands, a) (posted_gui s) ->
    exists l, a = Commands l /\ In (Ext (listRpcCommands l)) (trace s);
  more_rcv : logged_as_returned (trace s)
}.

(** ** Panels and the central widget

    [GuiController::load] and [Panel] (panel.h, panel.cpp).  Widgets are
    named by numbers.  A [QPointer] reads as null once its widget has been
    destroyed.  Of [QMainWindow], [takeCentralWidget] detaches the central
    widget and hands it to the caller; [setCentralWidget] destroys the
    central widget it replaces, unless it is given the same one again. *)

Definition widget : Type := nat.

(** [Panel::m_widget], a [QPointer<QWidget>]. *)
Record Panel := Panel_ctor { m_widget : widget }.

Record central_state := mkCentral {
  central : option widget;           (* m_window->centralWidget() *)
  destroyed : list widget;           (* widgets deleted so far *)
  m_current_panel : option Panel     (* GuiController::m_current_panel *)
}.

Definition is_destroyed (c : central_state) (w : widget) : bool :=
  existsb (Nat.eqb w) (destroyed c).

(** [Panel::widget]. *)
Definition Panel_widget (p : Panel) (c : central_state) : option widget :=
  if is_destroyed c (m_widget p) then None else Some (m_widget p).

Definition QMainWindow_takeCentralWidget (c : central_state)
  : option widget * central_state :=
  (central c, mkCentral None (destroyed c) (m_current_panel c)).

Definition QMainWindow_setCentralWidget (w : option widget)
    (c : central_state) : central_state :=
  let replaced :=
    match central c, w with
    | Some old, Some new => if Nat.eqb old new then [] else [old]
    | Some old, None => [old]
    | None, _ => []
    end in
  mkCentral w (replaced ++ destroyed c) (m_current_panel c).

(** [GuiController::load]. *)
Definition GuiController_load (panel : Panel) (c : central_state)
  : central_state :=
  let '(old, c) := QMainWindow_takeCentralWidget c in
  let c := QMainWindow_setCentralWidget (Panel_widget panel c) c in
  mkCentral (central c) (destroyed c) (Some panel).

Definition load_all (panels : list Panel) (c : central_state)
  : central_state :=
  fold_left (fun c p => GuiController_load p c) panels c.

(** ** Accounting for the result of full initialization *)

(** The executor reports success. *)
Definition isReportedOk (ev : event) : bool :=
  match ev with
  | Emitted InitExecutor_initializeResult (InitResult true _) => true
  | _ => false
  end.

(** A pending call of [NodeWorker::initializeResult] with success. *)
Definition isResultOkCall (c : call) : bool :=
  match c with
  | (NodeWorker_initializeResult, InitResult true _) => true
  | _ => false
  end.

(** A pending call of the window's [show]. *)
Definition isShowCall (c : call) : bool :=
  match fst c with QMainWindow_show => true | _ => false end.

(** Every reported success is handled twice or still waits for the worker;
    every handled success has emitted [initSuccess]; every [initSuccess] has
    had its [show] run or still waits for the GUI thread. *)
Record accounted (s : state) : Prop := {
  acc_reported :
    2 * count isReportedOk (trace s)
    = count isInitResultOk (trace s) + count isResultOkCall (posted_node s);
  acc_handled :
    count isInitResultOk (trace s) = count isInitSuccess (trace s);
  acc_shown :
    count isInitSuccess (trace s)
    = count isShow (trace s) + count isShowCall (posted_gui s)
}.

(** Thread [t] takes [n] turns in a row. *)
Definition serve (t : thread) (n : nat) : list action :=
  repeat (Deliver t) n.

(** ** Basic facts about the updates *)

Lemma records_record evs ev s :
  records evs (record ev s) = records (ev :: evs) s.
Proof. unfold records, record; cbn. now rewrite <- app_assoc. Qed.

Lemma records_nil s : records [] s = s.
Proof. destruct s; unfold records; cbn. now rewrite app_nil_r. Qed.

(** The loop of [BitcoinGUI::rcvCommands] appends one entry per command. *)
Lemma log_commands l : forall s,
  fold_left (fun s cmd => qlog Debug [Text cmd] s) l s
  = records (map log_command l) s.
Proof.
  induction l as [|c l IH]; intros s; cbn [fold_left map].
  - now rewrite records_nil.
  - rewrite IH. apply records_record.
Qed.

Lemma wired_eta s :
  wired s ->
  s = mkState wiring NodeThread true (loop s) (posted_gui s) (posted_node s)
        (posted_init s) (m_allow_close s) (visible s) (rpc_calls s) (trace s).
Proof. intros (Hc & Ha & Hr). destruct s; cbn in *. congruence. Qed.

(** More fuel than [call_depth] changes nothing: no call chain of the wired
    program is cut short. *)
Lemma call_depth_enough e k cur m a s :
  wired s ->
  invoke (call_depth + k) e cur m a s = invoke call_depth e cur m a s.
Proof.
  intros H. rewrite (wired_eta s H).
  generalize (loop s) (posted_gui s) (posted_node s) (posted_init s)
             (m_allow_close s) (visible s) (rpc_calls s) (trace s).
  clear. intros l pg pn pi ac vi n tr.
  destruct e as [pe ce th b [rv tip] rc].
  destruct m;
    lazymatch goal with
    | |- invoke _ _ _ GuiController_initNode _ _ = _ => destruct b
    | |- invoke _ _ _ NodeWorker_baseInitNode _ _ = _ => destruct b
    | |- invoke _ _ _ NodeWorker_initializeResult _ _ = _ =>
        destruct a as [| |[] ?]
    | |- invoke _ _ _ InitExecutor_initializeResult _ _ = _ =>
        destruct a as [| |[] ?]
    | |- invoke _ _ _ Context_initialize _ _ = _ => destruct rv
    | |- _ => idtac
    end; destruct cur; vm_compute; reflexivity.
Qed.

Lemma transition_eq e s a s1 s2 :
  s1 = s2 -> transition e s a s1 -> transition e s a s2.
Proof. now intros ->. Qed.

Ltac same_state := cbv -[app]; repeat rewrite <- app_assoc; reflexivity.

(** [step] takes the transitions listed above and no others. *)
Lemma step_transition e a s :
  wired s -> queues_ok s -> transition e s a (step e a s).
Proof.
  intros Hw Hq. destruct s as [c af r l pg pn pi ac vi n tr].
  unfold wired, queues_ok in *; cbn in Hw, Hq.
  destruct Hw as (-> & -> & ->). destruct Hq as (Hg & Hn & Hi).
  destruct e as [pe ce th b [rv tip] rc].
  assert (Hl : l = NotStarted \/ l <> NotStarted)
    by (destruct l; [left; reflexivity | right; discriminate ..]).
  destruct a as [[| |] | |].
  - (* the GUI thread delivers *)
    destruct Hl as [-> | Hl]; [apply T_idle|].
    destruct pg as [|[m a] q]; [destruct l; apply T_idle|].
    destruct m; try discriminate Hg.
    + eapply transition_eq;
        [| apply (T_rcvCommands _ _ a q); [exact Hl | reflexivity]].
      destruct l; [congruence | |];
        rewrite <- records_record, <- log_commands; reflexivity.
    + eapply transition_eq;
        [| apply (T_doClose _ _ a q); [exact Hl | reflexivity]].
      destruct l; [congruence | |]; same_state.
    + eapply transition_eq;
        [| apply (T_show _ _ a q); [exact Hl | reflexivity]].
      destruct l; [congruence | |]; same_state.
    + eapply transition_eq;
        [| apply (T_executor_shutdown _ _ a q); [exact Hl | reflexivity]].
      destruct l; [congruence | |]; same_state.
  - (* the worker's thread delivers *)
    destruct pn as [|[m a] q]; [apply T_idle|].
    destruct m; try discriminate Hn.
    + eapply transition_eq; [| apply (T_shutdownResult _ _ a q); reflexivity].
      same_state.
    + destruct b.
      * eapply transition_eq;
          [| apply (T_baseInit_ok _ _ a q); reflexivity].
        same_state.
      * eapply transition_eq;
          [| apply (T_baseInit_fail _ _ a q); reflexivity].
        destruct l; same_state.
    + destruct (args_success a) eqn:Ha.
      * eapply transition_eq;
          [| apply (T_initializeResult_ok _ _ a q); [reflexivity | exact Ha]].
        destruct a as [| |[] t]; try discriminate Ha. same_state.
      * eapply transition_eq;
          [| apply (T_initializeResult_fail _ _ a q);
             [reflexivity | exact Ha]].
        destruct a as [| |[] t]; try discriminate Ha; destruct l; same_state.
    + eapply transition_eq; [| apply (T_onShutdown _ _ a q); reflexivity].
      same_state.
    + eapply transition_eq; [| apply (T_listCommands _ _ a q); reflexivity].
      same_state.
  - (* the executor's thread delivers *)
    destruct pi as [|[m a] q]; [apply T_idle|].
    destruct m; try discriminate Hi.
    + eapply transition_eq;
        [| apply (T_context_initialize _ _ a q); reflexivity].
      destruct rv; destruct l; same_state.
    + eapply transition_eq;
        [| apply (T_context_shutdown _ _ a q); reflexivity].
      same_state.
  - (* a click *)
    destruct Hl as [-> | Hl]; [apply T_idle|].
    eapply transition_eq; [| apply T_click; exact Hl].
    destruct l; [congruence | |]; same_state.
  - (* a close request *)
    destruct Hl as [-> | Hl]; [apply T_idle|].
    destruct ac.
    + eapply transition_eq;
        [| apply T_close_accepted; [exact Hl | reflexivity]].
      destruct l; [congruence | |]; same_state.
    + eapply transition_eq;
        [| apply T_close_ignored; [exact Hl | reflexivity]].
      destruct l; [congruence | |]; same_state.
Qed.

(** ** Lemmas on traces *)

Section Scan.

Variables P Q : event -> bool.

Lemma each_after_app w tr : forall seen d,
  each_after P Q w seen (tr ++ d)
  = each_after P Q w seen tr && each_after P Q w (seen || existsb P tr) d.
Proof.
  induction tr as [|ev tr IH]; intros seen d; cbn.
  - now rewrite orb_false_r.
  - rewrite IH, orb_assoc, andb_assoc. reflexivity.
Qed.

Lemma each_after_always tr :
  each_after P Q true false tr = true -> always_after P Q tr.
Proof.
  intros H pre ev post -> HQ.
  rewrite each_after_app in H. apply andb_prop in H as [_ H].
  cbn in H. rewrite HQ in H. apply andb_prop in H as [H _].
  destruct (existsb P pre) eqn:E; [|discriminate H].
  apply existsb_exists in E. exact E.
Qed.

Lemma each_after_never tr :
  each_after P Q false false tr = true -> never_after P Q tr.
Proof.
  intros H pre ev post -> HQ ev' Hin.
  rewrite each_after_app in H. apply andb_prop in H as [_ H].
  cbn in H. rewrite HQ in H. apply andb_prop in H as [H _].
  destruct (existsb P pre) eqn:E; [discriminate H|].
  destruct (P ev') eqn:E'; [|reflexivity].
  assert (existsb P pre = true) by (apply existsb_exists; eauto). congruence.
Qed.

(** A [Q]-event in the trace brings a [P]-event with it. *)
Lemma each_after_exists tr :
  each_after P Q true false tr = true ->
  existsb Q tr = true -> existsb P tr = true.
Proof.
  intros H HQ. apply existsb_exists in HQ as (ev & Hin & HQ).
  apply in_split in Hin as (pre & post & ->).
  destruct (each_after_always _ H pre ev post eq_refl HQ)
    as (ev' & Hin & HP).
  apply existsb_exists. exists ev'. split; [|exact HP].
  apply in_or_app. now left.
Qed.

Lemma next_is_app tr : forall d,
  next_is P Q tr = true -> next_is P Q d = true ->
  next_is P Q (tr ++ d) = true.
Proof.
  induction tr as [|ev tr IH]; intros d H Hd; cbn in *; [exact Hd|].
  apply andb_prop in H as [H1 H2]. rewrite (IH d H2 Hd), andb_true_r.
  destruct (P ev); [|reflexivity].
  destruct tr; [discriminate H1 | exact H1].
Qed.

Lemma existsb_log_commands l :
  (forall c, P (log_command c) = false) ->
  existsb P (map log_command l) = false.
Proof. intros H. induction l; cbn; [reflexivity|]. now rewrite H, IHl. Qed.

Lemma filter_log_commands l :
  (forall c, P (log_command c) = false) ->
  filter P (map log_command l) = [].
Proof. intros H. induction l; cbn; [reflexivity|]. now rewrite H, IHl. Qed.

Lemma each_after_log_commands w seen l :
  (forall c, P (log_command c) = false) ->
  (forall c, Q (log_command c) = false) ->
  each_after P Q w seen (map log_command l) = true.
Proof.
  intros HP HQ. revert seen. induction l; intros seen; cbn; [reflexivity|].
  now rewrite HQ, HP, orb_false_r, IHl.
Qed.

Lemma next_is_log_commands l :
  (forall c, P (log_command c) = false) ->
  next_is P Q (map log_command l) = true.
Proof. intros HP. induction l; cbn; [reflexivity|]. now rewrite HP, IHl. Qed.

End Scan.

Ltac log_blind :=
  rewrite ?existsb_log_commands by reflexivity;
  rewrite ?each_after_log_commands by reflexivity;
  rewrite ?next_is_log_commands by reflexivity.

Ltac norm :=
  unfold wired, queues_ok, started, QCoreApplication_exit, post, records,
         record, set_queue, queue_of, set_visible, set_allow_close, set_loop,
         count_rpc_call in *;
  cbn [connections node_affinity node_thread_running loop posted_gui
       posted_node posted_init m_allow_close visible rpc_calls trace] in *.

Ltac norm_goal :=
  unfold wired, queues_ok, started, QCoreApplication_exit, post, records,
         record, set_queue, queue_of, set_visible, set_allow_close, set_loop,
         count_rpc_call;
  cbn [connections node_affinity node_thread_running loop posted_gui
       posted_node posted_init m_allow_close visible rpc_calls trace].

Ltac count_fact :=
  repeat match goal with
  | H : posted_node _ = _ |- _ => rewrite H in *
  end;
  unfold count in *;
  rewrite ?filter_app, ?length_app in *;
  cbn [filter List.length app isBaseInitCall isExecutorInitialize
       isBaseInitNodeCall fst] in *;
  rewrite ?filter_log_commands by reflexivity;
  cbn [List.length] in *;
  lia.

Ltac queue_fact :=
  let a0 := fresh "a0" in let Hin := fresh "Hin" in
  intros a0 Hin;
  repeat match goal with
  | H : In _ (_ ++ _) |- _ => apply in_app_or in H as [H | H]
  | H : In _ [_] |- _ => destruct H as [H | []]
  | H : (_, _) = (_, _) |- _ => inversion H; clear H; subst
  end;
  try reflexivity;
  eauto using in_cons, in_eq.

Lemma inv_step e a s s' : inv e s -> transition e s a s' -> inv e s'.
Proof.
  intros I T. destruct T; [exact I | ..];
    destruct I as [Iw Iq Ires Ishow Iclose
                   [Ibase Isucc Iallow Ivis Iexit E1 E2 E3 E4 E5 E6 Inext C1 C2]];
    unfold wired, queues_ok, started in *;
    (constructor; [.. | constructor]); norm_goal.
  all: try assumption.
  all: try match goal with |- _ <= _ => solve [count_fact] end.
  all: try (apply next_is_app; [assumption | cbn; log_blind; reflexivity]).
  all: try (rewrite <- app_assoc; apply next_is_app; [assumption | reflexivity]).
  all: repeat match goal with
       | H : posted_gui _ = _ |- _ => rewrite H in *
       | H : posted_node _ = _ |- _ => rewrite H in *
       | H : posted_init _ = _ |- _ => rewrite H in *
       end.
  all: rewrite ?existsb_app, ?each_after_app, ?forallb_app in *.
  all: cbn [existsb each_after forallb app] in *.
  all: log_blind.
  all: cbn [isBaseInitTrue isExecutorInitialize isInitResultOk isInitSuccess
            isShow isShutdownAck isDoClose isCloseAccepted isCloseIgnored
            gui_call node_call init_call fst snd orb andb] in *.
  all: rewrite ?orb_false_r, ?orb_true_r, ?andb_true_r in *.
  all: try assumption.
  all: try reflexivity.
  all: try tauto.
  all: try solve [queue_fact].
  all: try solve [destruct (loop s); [congruence | eauto ..]].
  all: try solve [intros Hd; destruct (Iexit Hd) as [c ->]; eauto].
  all: try (intros; discriminate).
  all: rewrite ?existsb_app in *; cbn [existsb isDoClose orb] in *;
       rewrite ?orb_false_r in *.
  all: repeat match goal with
       | H : forall a, In (?m, a) ((?m, ?x) :: _) -> ?P = true
         |- context [?P] =>
           rewrite (H x (in_eq _ _))
       | H : m_allow_close ?s = ?b, E : m_allow_close ?s = ?b' |- _ =>
           rewrite E in H; rewrite <- H
       | H : forall a, In (NodeWorker_initializeResult, a)
                          ((NodeWorker_initializeResult, ?x) :: _) -> a = _,
         E : args_success ?x = true |- _ =>
           rewrite (H x (in_eq _ _)) in E |- *; cbn in E; rewrite E
       | H : forall a, In (NodeWorker_initializeResult, a)
                          ((NodeWorker_initializeResult, ?x) :: _) -> a = _,
         E : args_success ?x = true |- _ =>
           rewrite (H x (in_eq _ _)) in E; cbn in E; rewrite E
       end.
  all: try (rewrite ?orb_true_r, ?andb_true_r; cbn; assumption).
  all: try (intros _; assumption).
  all: auto.
Qed.

Lemma inv_run e sched : forall s, inv e s -> inv e (run e sched s).
Proof.
  induction sched as [|a sched IH]; intros s I; cbn; [exact I|].
  apply IH. eapply inv_step; [exact I|].
  apply step_transition; apply I.
Qed.

Lemma inv_set_loop e l s :
  l <> NotStarted -> loop s = NotStarted -> inv e s -> inv e (set_loop l s).
Proof.
  intros Hl Hs [Iw Iq Ires Ishow Iclose
          [Ibase Isucc Iallow Ivis Iexit E1 E2 E3 E4 E5 E6 Inext C1 C2]].
  (constructor; [.. | constructor]); norm; try assumption.
  intros Hd. destruct (Iexit Hd) as [c Hc]. congruence.
Qed.

Lemma ctor_inv e s :
  GuiController_ctor e main_state = inr s -> inv e s /\ loop s = NotStarted.
Proof.
  intros H. destruct e as [pe ce th b rr rc].
  destruct ce as [err|]; destruct th as [[[] x]|]; vm_compute in H.
  all: try discriminate H.
  all: injection H as <-.
  all: split; [|reflexivity].
  all: (constructor; [.. | constructor]); vm_compute.
  all: try (repeat split; reflexivity).
  all: try (intros; discriminate).
  all: try (intros a [Ha | []]; discriminate Ha).
  all: try (intros a []).
Qed.

(** ** Runs of GuiMain *)

Lemma transition_started e s a s' :
  transition e s a s' -> started s -> started s'.
Proof.
  intros T H. destruct T; norm; try assumption.
  all: destruct (loop s); congruence.
Qed.

Lemma run_started e sched : forall s,
  inv e s -> started s -> started (run e sched s).
Proof.
  induction sched as [|a sched IH]; intros s I H; cbn; [exact H|].
  assert (T : transition e s a (step e a s))
    by (apply step_transition; apply I).
  apply IH.
  - eapply inv_step; eassumption.
  - eapply transition_started; eassumption.
Qed.

Lemma run_app e sched more s :
  run e (sched ++ more) s = run e more (run e sched s).
Proof. apply fold_left_app. Qed.

(** The successful path of [GuiMain]. *)
Lemma GuiMain_constructed e pre sched s0 :
  parse_parameters_error e = None ->
  GuiController_ctor e main_state = inr s0 ->
  GuiMain e pre sched =
    (exec_result (run e sched (set_loop Running (run e pre s0))),
     run e sched (set_loop Running (run e pre s0))).
Proof.
  intros Hp Hc. unfold GuiMain. rewrite Hp.
  change (record (Ext (ParseParameters None))
            (record (Ext SetupServerArgs)
               (record (Ext SetupEnvironment) init_state)))
    with main_state.
  rewrite Hc. unfold QApplication_exec, exec_result.
  destruct (loop _); reflexivity.
Qed.

Lemma constructed_inv e pre sched s0 :
  GuiController_ctor e main_state = inr s0 ->
  let s := run e sched (set_loop Running (run e pre s0)) in
  inv e s /\ started s.
Proof.
  intros Hc s. destruct (ctor_inv e s0 Hc) as [I Hl].
  assert (I1 : inv e (run e pre s0)) by (apply inv_run; exact I).
  assert (Hl1 : loop (run e pre s0) = NotStarted).
  { clear - I Hl. revert s0 I Hl.
    induction pre as [|a pre IH]; intros s0 I Hl; cbn; [exact Hl|].
    assert (T : transition e s0 a (step e a s0))
      by (apply step_transition; apply I).
    apply IH; [eapply inv_step; eassumption|].
    destruct T; norm; try assumption; try congruence.
    all: rewrite Hl; reflexivity. }
  assert (I2 : inv e (set_loop Running (run e pre s0)))
    by (apply inv_set_loop; [discriminate | assumption | assumption]).
  split; [apply inv_run; exact I2|].
  apply run_started; [exact I2|]. unfold started; cbn. discriminate.
Qed.

(** Every way out of [GuiMain]. *)
Lemma GuiMain_cases e pre sched :
  (exists s0,
     parse_parameters_error e = None /\
     GuiController_ctor e main_state = inr s0 /\
     inv e (snd (GuiMain e pre sched)) /\
     started (snd (GuiMain e pre sched)) /\
     fst (GuiMain e pre sched) = exec_result (snd (GuiMain e pre sched)))
  \/
  (fst (GuiMain e pre sched) = Some EXIT_FAILURE /\
   safe e (snd (GuiMain e pre sched)) /\
   loop (snd (GuiMain e pre sched)) = NotStarted /\
   existsb isDoClose (trace (snd (GuiMain e pre sched))) = false /\
   existsb isShow (trace (snd (GuiMain e pre sched))) = false /\
   existsb isExecutorInitialize (trace (snd (GuiMain e pre sched))) = false /\
   visible (snd (GuiMain e pre sched)) = false).
Proof.
  destruct (parse_parameters_error e) as [error|] eqn:Hp.
  - right. unfold GuiMain. rewrite Hp. cbn [fst snd].
    repeat split; try reflexivity; vm_compute; try reflexivity; try lia;
      intros; discriminate.
  - destruct (GuiController_ctor e main_state) as [[x s]|s0] eqn:Hc.
    + right. unfold GuiMain. rewrite Hp.
      change (record (Ext (ParseParameters None))
                (record (Ext SetupServerArgs)
                   (record (Ext SetupEnvironment) init_state)))
        with main_state.
      rewrite Hc. clear Hp.
      destruct e as [pe ce th b rr rc].
      destruct ce as [err|]; destruct th as [[[] y]|]; vm_compute in Hc.
      all: try discriminate Hc.
      all: injection Hc as <- <-.
      all: destruct y; cbn [fst snd].
      all: repeat split; try reflexivity; vm_compute; try reflexivity;
        try lia; intros; discriminate.
    + left. exists s0. rewrite (GuiMain_constructed e pre sched s0 Hp Hc).
      cbn [fst snd]. destruct (constructed_inv e pre sched s0 Hc) as [I S].
      split; [reflexivity|]. split; [reflexivity|]. split; [exact I|].
      split; [exact S | reflexivity].
Qed.

Lemma GuiMain_safe e pre sched : safe e (snd (GuiMain e pre sched)).
Proof.
  destruct (GuiMain_cases e pre sched) as [(s0 & _ & _ & I & _) | (_ & S & _)].
  - apply I.
  - exact S.
Qed.

(** ** From classifiers to events *)

Lemma next_is_spec P N tr :
  next_is P N tr = true ->
  forall pre ev post, tr = pre ++ ev :: post -> P ev = true ->
  exists ev' post', post = ev' :: post' /\ N ev' = true.
Proof.
  intros H pre. revert tr H.
  induction pre as [|x pre IH]; intros tr H ev post -> HP; cbn in H.
  - rewrite HP in H. apply andb_prop in H as [H _].
    destruct post as [|ev' post']; [discriminate H|]. eauto.
  - apply andb_prop in H as [_ H]. eapply IH; eauto.
Qed.

Lemma existsb_false_not_In P (tr : list event) ev :
  existsb P tr = false -> P ev = true -> ~ In ev tr.
Proof.
  intros H HP Hin.
  assert (existsb P tr = true) by (apply existsb_exists; eauto). congruence.
Qed.

Lemma isDoClose_inv ev :
  isDoClose ev = true -> exists a, ev = Entered BitcoinGUI_doClose a.
Proof. destruct ev as [| |[] a| | | |]; try discriminate. eauto. Qed.

Lemma isShutdownAck_inv ev :
  isShutdownAck ev = true -> exists a, ev = Emitted NodeWorker_shutdownResult a.
Proof. destruct ev as [|[] a| | | | |]; try discriminate. eauto. Qed.

Lemma isInitSuccess_inv ev :
  isInitSuccess ev = true -> exists a, ev = Emitted NodeWorker_initSuccess a.
Proof. destruct ev as [|[] a| | | | |]; try discriminate. eauto. Qed.

Lemma isInitResultOk_inv ev :
  isInitResultOk ev = true ->
  exists t, ev = Entered NodeWorker_initializeResult (InitResult true t).
Proof.
  destruct ev as [| |[] [| |[] t]| | | |]; try discriminate. eauto.
Qed.

Lemma isBaseInitTrue_inv ev :
  isBaseInitTrue ev = true -> ev = Ext (baseInitialize true).
Proof.
  destruct ev as [| | |[]| | |]; try discriminate.
  destruct r; [reflexivity | discriminate].
Qed.

Lemma isExit_inv c ev : isExit c ev = true -> ev = ExitRequested c.
Proof.
  destruct ev; try discriminate. cbn. intros H.
  apply Z.eqb_eq in H. now subst.
Qed.

(** ** The exit code of GuiMain *)

(** C7.  [GuiMain] returns [EXIT_FAILURE] when the command line does not
    parse, logging the parser's message, and when an exception leaves the
    controller's constructor, logging what it says at the top level; it
    returns [EXIT_SUCCESS] whenever the event loop has returned, whatever
    code the loop returned. *)
Theorem GuiMain_exit_code e pre sched :
  (forall error,
     parse_parameters_error e = Some error ->
     fst (GuiMain e pre sched) = Some EXIT_FAILURE /\
     trace (snd (GuiMain e pre sched)) =
       [Ext SetupEnvironment; Ext SetupServerArgs;
        Ext (ParseParameters (Some error));
        Log Critical [Text "fail to parse args: "; Text error]]) /\
  (forall x s,
     parse_parameters_error e = None ->
     GuiController_ctor e main_state = inl (x, s) ->
     fst (GuiMain e pre sched) = Some EXIT_FAILURE /\
     trace (snd (GuiMain e pre sched)) =
       trace s ++
       [Log Critical
          [Text match x with
                | StdException what => what
                | OtherException => "Runaway Exception"
                end]]) /\
  (forall s0 code,
     parse_parameters_error e = None ->
     GuiController_ctor e main_state = inr s0 ->
     fst (QApplication_exec e sched (run e pre s0)) = Some code ->
     fst (GuiMain e pre sched) = Some EXIT_SUCCESS).
Proof.
  split; [|split].
  - intros error Hp. unfold GuiMain. rewrite Hp. split; reflexivity.
  - intros x s Hp Hc. unfold GuiMain. rewrite Hp.
    change (record (Ext (ParseParameters None))
              (record (Ext SetupServerArgs)
                 (record (Ext SetupEnvironment) init_state)))
      with main_state.
    rewrite Hc. destruct x; split; reflexivity.
  - intros s0 code Hp Hc He.
    rewrite (GuiMain_constructed e pre sched s0 Hp Hc). cbn [fst].
    unfold QApplication_exec in He. cbn [fst] in He.
    unfold exec_result. destruct (loop _); try discriminate He. reflexivity.
Qed.

Lemma GuiMain_exit_code_witness :
  fst (GuiMain env_bad_args [] startup) = Some 1%Z /\
  fst (GuiMain env_throw [] startup) = Some 1%Z /\
  In (Log Critical [Text "std::bad_alloc"])
     (trace (snd (GuiMain env_throw [] startup))) /\
  fst (GuiMain env_ok [] (startup ++ close_round)) = Some 0%Z.
Proof.
  destruct (GuiMain_exit_code env_bad_args [] startup) as (A & _ & _).
  destruct (GuiMain_exit_code env_throw [] startup) as (_ & B & _).
  destruct (GuiMain_exit_code env_ok [] (startup ++ close_round))
    as (_ & _ & C).
  split; [exact (proj1 (A _ eq_refl))|].
  destruct (B (StdException "std::bad_alloc")
              (snd (match GuiController_ctor env_throw main_state with
                    | inl p => p
                    | inr s => (OtherException, s)
                    end))
              eq_refl eq_refl) as [B1 B2].
  split; [exact B1|]. split.
  - rewrite B2. apply in_or_app. right. left. reflexivity.
  - refine (C (match GuiController_ctor env_ok main_state with
               | inl p => snd p
               | inr s => s
               end) 0%Z eq_refl eq_refl _).
    vm_compute. reflexivity.
Defined.

(** ** Start-up *)

(** C3.  In every run, each call of [InitExecutor::initialize] comes after
    a call of [baseInitialize()] that returned true; when
    [baseInitialize()] returns false the executor's [initialize] is never
    called. *)
Theorem full_init_only_after_base_init e pre sched :
  (forall p a q,
     trace (snd (GuiMain e pre sched))
       = p ++ Entered InitExecutor_initialize a :: q ->
     In (Ext (baseInitialize true)) p) /\
  (base_initialize_result e = false ->
   forall a,
     ~ In (Entered InitExecutor_initialize a)
          (trace (snd (GuiMain e pre sched)))).
Proof.
  pose proof (GuiMain_safe e pre sched) as S.
  split.
  - intros p a q Htr.
    destruct (each_after_always _ _ _ (safe_exec_after_base _ _ S)
                p _ q Htr eq_refl) as (ev & Hin & Hev).
    apply isBaseInitTrue_inv in Hev. now subst.
  - intros Hb a.
    apply (existsb_false_not_In isExecutorInitialize); [|reflexivity].
    destruct (existsb isExecutorInitialize _) eqn:E; [|reflexivity].
    pose proof (each_after_exists _ _ _ (safe_exec_after_base _ _ S) E) as B.
    apply (safe_base _ _ S) in B. congruence.
Qed.

Lemma full_init_only_after_base_init_witness :
  In (Entered InitExecutor_initialize NoArgs)
     (trace (snd (GuiMain env_ok [] startup))) /\
  ~ In (Entered InitExecutor_initialize NoArgs)
       (trace (snd (GuiMain env_base_fail [] startup))).
Proof.
  split.
  - vm_compute. tauto.
  - exact (proj2 (full_init_only_after_base_init env_base_fail [] startup)
             eq_refl NoArgs).
Defined.

(** ** Closing the window *)

Lemma GuiMain_app e pre sched more :
  started (snd (GuiMain e pre sched)) ->
  snd (GuiMain e pre (sched ++ more)) = run e more (snd (GuiMain e pre sched)).
Proof.
  intros Hs.
  destruct (GuiMain_cases e pre sched)
    as [(s0 & Hp & Hc & _) | (_ & _ & Hl & _)]; [|contradiction].
  rewrite !(GuiMain_constructed e pre _ s0 Hp Hc). cbn [snd].
  apply run_app.
Qed.

Lemma transition_allow_close e s a s' :
  transition e s a s' -> m_allow_close s = true -> m_allow_close s' = true.
Proof. intros T H. destruct T; norm; auto. Qed.

Lemma run_allow_close e sched : forall s,
  inv e s -> m_allow_close s = true -> m_allow_close (run e sched s) = true.
Proof.
  induction sched as [|a sched IH]; intros s I H; cbn; [exact H|].
  assert (T : transition e s a (step e a s))
    by (apply step_transition; apply I).
  apply IH; [eapply inv_step | eapply transition_allow_close]; eassumption.
Qed.

(** C2.  In every run a close request is accepted only after the worker has
    emitted [shutdownResult]; [doClose], which completes the close sequence,
    runs only after that signal and at once asks the application to exit
    with code 0; and once [doClose] has run, [GuiMain] returns 0. *)
Theorem close_waits_for_shutdown_result e pre sched :
  (forall p q,
     trace (snd (GuiMain e pre sched)) = p ++ CloseAccepted :: q ->
     exists a, In (Emitted NodeWorker_shutdownResult a) p) /\
  (forall p a q,
     trace (snd (GuiMain e pre sched))
       = p ++ Entered BitcoinGUI_doClose a :: q ->
     (exists a', In (Emitted NodeWorker_shutdownResult a') p) /\
     exists q', q = ExitRequested 0 :: q') /\
  ((exists a,
      In (Entered BitcoinGUI_doClose a) (trace (snd (GuiMain e pre sched)))) ->
   fst (GuiMain e pre sched) = Some EXIT_SUCCESS).
Proof.
  pose proof (GuiMain_safe e pre sched) as S.
  assert (D : forall p a q,
     trace (snd (GuiMain e pre sched))
       = p ++ Entered BitcoinGUI_doClose a :: q ->
     exists a', In (Emitted NodeWorker_shutdownResult a') p).
  { intros p a q Htr.
    destruct (each_after_always _ _ _ (safe_doClose_after_ack _ _ S)
                p _ q Htr eq_refl) as (ev & Hin & Hev).
    apply isShutdownAck_inv in Hev as [a' ->]. eauto. }
  split; [|split].
  - intros p q Htr.
    destruct (each_after_always _ _ _ (safe_accept_after_doClose _ _ S)
                p _ q Htr eq_refl) as (ev & Hin & Hev).
    apply isDoClose_inv in Hev as [a ->].
    apply in_split in Hin as (p1 & p2 & ->).
    rewrite <- app_assoc in Htr. cbn [app] in Htr.
    destruct (D _ _ _ Htr) as [a' Hin]. exists a'.
    apply in_or_app. now left.
  - intros p a q Htr. split; [eapply D; eassumption|].
    destruct (next_is_spec _ _ _ (safe_doClose_exits _ _ S) p _ q Htr eq_refl)
      as (ev' & q' & -> & Hev).
    apply isExit_inv in Hev. subst. eauto.
  - intros [a Hin].
    assert (E : existsb isDoClose (trace (snd (GuiMain e pre sched))) = true)
      by (apply existsb_exists; eexists; split; [exact Hin | reflexivity]).
    destruct (GuiMain_cases e pre sched)
      as [(s0 & _ & _ & _ & _ & Hr) | (_ & _ & _ & Hd & _)]; [|congruence].
    rewrite Hr. unfold exec_result.
    destruct (safe_exited _ _ S E) as [c ->]. reflexivity.
Qed.

Lemma close_waits_for_shutdown_result_witness :
  In CloseIgnored
     (trace (snd (GuiMain env_ok [] (startup ++ close_round)))) /\
  fst (GuiMain env_ok [] (startup ++ close_round)) = Some 0%Z.
Proof.
  split.
  - vm_compute. tauto.
  - apply (proj2 (proj2 (close_waits_for_shutdown_result
                           env_ok [] (startup ++ close_round)))).
    exists NoArgs. vm_compute. tauto.
Defined.

(** C8.  [m_allow_close] starts false; in every run it is true exactly when
    [doClose] has run, and it stays true from then on; a close request is
    accepted only if [doClose] ran before it, and is ignored only if
    [doClose] did not. *)
Theorem allow_close_set_only_by_doClose e pre sched :
  m_allow_close init_state = false /\
  (m_allow_close (snd (GuiMain e pre sched)) = true <->
   exists a,
     In (Entered BitcoinGUI_doClose a) (trace (snd (GuiMain e pre sched)))) /\
  (forall more,
     m_allow_close (snd (GuiMain e pre sched)) = true ->
     m_allow_close (snd (GuiMain e pre (sched ++ more))) = true) /\
  (forall p q,
     trace (snd (GuiMain e pre sched)) = p ++ CloseAccepted :: q ->
     exists a, In (Entered BitcoinGUI_doClose a) p) /\
  (forall p q,
     trace (snd (GuiMain e pre sched)) = p ++ CloseIgnored :: q ->
     forall a, ~ In (Entered BitcoinGUI_doClose a) p).
Proof.
  pose proof (GuiMain_safe e pre sched) as S.
  split; [reflexivity|]. split; [|split; [|split]].
  - rewrite (safe_allow _ _ S). split.
    + intros E. apply existsb_exists in E as (ev & Hin & Hev).
      apply isDoClose_inv in Hev as [a ->]. eauto.
    + intros [a Hin]. apply existsb_exists.
      eexists; split; [exact Hin | reflexivity].
  - intros more H.
    destruct (GuiMain_cases e pre sched)
      as [(s0 & _ & _ & I & St & _) | (_ & _ & _ & Hd & _)].
    + rewrite GuiMain_app by exact St. apply run_allow_close; assumption.
    + rewrite (safe_allow _ _ S) in H. congruence.
  - intros p q Htr.
    destruct (each_after_always _ _ _ (safe_accept_after_doClose _ _ S)
                p _ q Htr eq_refl) as (ev & Hin & Hev).
    apply isDoClose_inv in Hev as [a ->]. eauto.
  - intros p q Htr a Hin.
    pose proof (each_after_never _ _ _ (safe_ignore_before_doClose _ _ S)
                  p _ q Htr eq_refl _ Hin) as H.
    discriminate H.
Qed.

Lemma allow_close_set_only_by_doClose_witness :
  m_allow_close (snd (GuiMain env_ok [] (startup ++ [CloseRequest]))) = false /\
  In CloseIgnored
     (trace (snd (GuiMain env_ok [] (startup ++ [CloseRequest])))) /\
  m_allow_close
    (snd (GuiMain env_ok [] ((startup ++ close_round) ++ [CloseRequest])))
    = true /\
  In CloseAccepted
     (trace (snd (GuiMain env_ok []
                    ((startup ++ close_round) ++ [CloseRequest])))).
Proof.
  split; [reflexivity|]. split; [vm_compute; tauto|]. split.
  - apply (proj1 (proj2 (proj2 (allow_close_set_only_by_doClose
                                  env_ok [] (startup ++ close_round))))).
    apply (proj1 (proj2 (allow_close_set_only_by_doClose
                           env_ok [] (startup ++ close_round)))).
    exists NoArgs. vm_compute. tauto.
  - vm_compute. tauto.
Defined.

(** ** Listing the commands *)

(** The window's side of the exchange: one entry per command received. *)
Lemma deliver_rcvCommands e s a q :
  started s ->
  posted_gui s = (BitcoinGUI_rcvCommands, a) :: q ->
  step e (Deliver GuiThread) s =
    records (Entered BitcoinGUI_rcvCommands a
               :: map log_command (args_commands a))
            (set_queue GuiThread q s).
Proof.
  intros St Hq. unfold step, thread_active, deliver.
  destruct (loop s) eqn:L; [contradiction | |];
    cbn [queue_of]; rewrite Hq;
    rewrite <- records_record, <- log_commands; reflexivity.
Qed.

(** C5.  When the button is clicked in a state of a run with nothing pending
    for the window or the worker, and the worker and then the window take
    their turn, the worker calls [listRpcCommands()] once and the window
    logs the strings that call returned: one entry per string, in the order
    returned, nothing else. *)
Theorem click_logs_commands e pre sched :
  started (snd (GuiMain e pre sched)) ->
  posted_node (snd (GuiMain e pre sched)) = [] ->
  posted_gui (snd (GuiMain e pre sched)) = [] ->
  trace (snd (GuiMain e pre (sched ++ click_round))) =
    trace (snd (GuiMain e pre sched)) ++
    [Emitted Button_clicked NoArgs;
     Emitted BitcoinGUI_listCommands NoArgs;
     Entered NodeWorker_listCommands NoArgs;
     Log Debug [Text "NodeController::listCommands()"; ThreadId NodeThread];
     Ext (listRpcCommands
            (rpc_commands e (rpc_calls (snd (GuiMain e pre sched)))));
     Emitted NodeWorker_commands
       (Commands (rpc_commands e (rpc_calls (snd (GuiMain e pre sched)))));
     Entered BitcoinGUI_rcvCommands
       (Commands (rpc_commands e (rpc_calls (snd (GuiMain e pre sched)))))]
    ++ map log_command
         (rpc_commands e (rpc_calls (snd (GuiMain e pre sched)))).
Proof.
  intros St Hn Hg.
  rewrite GuiMain_app by exact St.
  destruct (GuiMain_cases e pre sched)
    as [(s0 & _ & _ & I & _ & _) | (_ & _ & Hl & _)]; [|contradiction].
  pose proof (inv_wired _ _ I) as W. clear I.
  revert St Hn Hg. generalize dependent (snd (GuiMain e pre sched)).
  intros s W. rewrite (wired_eta s W).
  cbn [loop posted_gui posted_node posted_init m_allow_close visible
       rpc_calls trace started].
  generalize (loop s) (posted_gui s) (posted_node s) (posted_init s)
             (m_allow_close s) (visible s) (rpc_calls s) (trace s).
  clear. intros l pg pn pi ac vi n tr St -> ->.
  destruct e as [pe ce th b rr rc].
  cbn [rpc_commands]. unfold click_round, run. cbn [fold_left].
  destruct l; [exfalso; apply St; reflexivity | |].
  all: match goal with
  | |- trace (step ?e ?a ?s2) = _ =>
      let s2' := eval cbn in s2 in change s2 with s2'
  end.
  all: rewrite (deliver_rcvCommands _ _ (Commands (rc n)) []);
    [| discriminate | reflexivity].
  all: cbn [trace records set_queue args_commands].
  all: repeat rewrite <- app_assoc; reflexivity.
Qed.

Lemma click_logs_commands_witness :
  trace (snd (GuiMain env_ok [] (startup ++ click_round))) =
    trace (snd (GuiMain env_ok [] startup)) ++
    [Emitted Button_clicked NoArgs;
     Emitted BitcoinGUI_listCommands NoArgs;
     Entered NodeWorker_listCommands NoArgs;
     Log Debug [Text "NodeController::listCommands()"; ThreadId NodeThread];
     Ext (listRpcCommands ["getblockcount"; "help"; "stop"]);
     Emitted NodeWorker_commands (Commands ["getblockcount"; "help"; "stop"]);
     Entered BitcoinGUI_rcvCommands
       (Commands ["getblockcount"; "help"; "stop"]);
     Log Debug [Text "getblockcount"];
     Log Debug [Text "help"];
     Log Debug [Text "stop"]].
Proof.
  refine (click_logs_commands env_ok [] startup _ eq_refl eq_refl).
  vm_compute. discriminate.
Defined.

(** ** The result of full initialization *)



(** ** A configuration file that does not parse *)

(** C9.  When the configuration file does not parse, the constructor goes
    on exactly as when it does: it ends in the same state (same connections,
    same thread affinity, worker thread started, [baseInitNode] posted to
    the worker), and its trace is that of the success case with the
    critical log entry and the exit request added after [InitConfig]; an
    exception thrown by one of its calls leaves it at the same call. *)
Theorem config_failure_does_not_stop_construction e error :
  init_config_error e = Some error ->
  match GuiController_ctor e main_state,
        GuiController_ctor (without_config_error e) main_state with
  | inr s, inr s' =>
      same_but_trace s s' /\
      wired s /\
      posted_node s = [(NodeWorker_baseInitNode, NoArgs)] /\
      trace s =
        trace main_state ++
        [Log Debug [Text "GuiController::GuiController()";
                    ThreadId GuiThread];
         Ext (InitConfig (Some error));
         Log Critical [Text "Fail to open bitcoin.conf:"; Text error];
         ExitRequested 1]
        ++ construction_after_config /\
      trace s' =
        trace main_state ++
        [Log Debug [Text "GuiController::GuiController()";
                    ThreadId GuiThread];
         Ext (InitConfig None)]
        ++ construction_after_config
  | inl (x, _), inl (x', _) => x = x'
  | _, _ => False
  end.
Proof.
  destruct e as [pe ce th b rr rc]. cbn [init_config_error].
  intros ->. unfold without_config_error.
  cbn [parse_parameters_error init_config_error throws
       base_initialize_result app_init_result rpc_commands].
  destruct th as [[[] x]|]; vm_compute; try reflexivity.
  all: repeat split; reflexivity.
Qed.

Lemma config_failure_does_not_stop_construction_witness :
  match GuiController_ctor env_bad_config main_state with
  | inr s =>
      wired s /\
      posted_node s = [(NodeWorker_baseInitNode, NoArgs)] /\
      In (Ext InitLogging) (trace s) /\
      In (Ext NewBitcoinGUI) (trace s) /\
      In (Ext NewNodeWorker) (trace s) /\
      In (Ext ThreadStart) (trace s) /\
      In (Emitted GuiController_initNode NoArgs) (trace s)
  | inl _ => False
  end.
Proof.
  pose proof (config_failure_does_not_stop_construction
                env_bad_config "parse error on line 1" eq_refl) as H.
  destruct (GuiController_ctor env_bad_config main_state) as [[x s]|s]
    eqn:E; [vm_compute in E; discriminate E|].
  destruct (GuiController_ctor (without_config_error env_bad_config)
              main_state) as [[x' s']|s']; [contradiction|].
  destruct H as (_ & W & Q & T & _).
  split; [exact W|]. split; [exact Q|].
  rewrite T. vm_compute. tauto.
Defined.

(** C1.  With a configuration file that does not parse ([env_bad_config]),
    the failure is logged and exit code 1 is requested, but [GuiMain] never
    returns 1: the request is made before [exec()] runs and so has no
    effect, start-up goes on, the window is shown and the loop keeps
    running; after the user closes the window [GuiMain] returns 0. *)
Theorem config_failure_exit_code :
  (forall pre sched,
     fst (GuiMain env_bad_config pre sched) <> Some EXIT_FAILURE) /\
  In (Log Critical [Text "Fail to open bitcoin.conf:";
                    Text "parse error on line 1"])
     (trace (snd (GuiMain env_bad_config [] startup))) /\
  In (ExitRequested 1) (trace (snd (GuiMain env_bad_config [] startup))) /\
  fst (GuiMain env_bad_config [] startup) = None /\
  visible (snd (GuiMain env_bad_config [] startup)) = true /\
  fst (GuiMain env_bad_config [] (startup ++ close_round))
    = Some EXIT_SUCCESS.
Proof.
  split.
  - intros pre sched.
    destruct (GuiController_ctor env_bad_config main_state) as [[x s]|s0]
      eqn:Hc; [vm_compute in Hc; discriminate Hc|].
    rewrite (GuiMain_constructed env_bad_config pre sched s0 eq_refl Hc).
    cbn [fst]. unfold exec_result. destruct (loop _); discriminate.
  - vm_compute. repeat split; tauto.
Qed.

(** C6.  When [baseInitialize()] returns false ([env_base_fail]) or full
    initialization reports failure ([env_init_fail]), the event loop is left
    with code 1, but [GuiMain] drops the value of [exec()] and returns 0; it
    never returns 1.  No phase is tried again: in every run
    [baseInitialize()] and the executor's [initialize] are each called at
    most once. *)
Theorem init_failure_exit_code :
  (forall pre sched,
     fst (GuiMain env_base_fail pre sched) <> Some EXIT_FAILURE) /\
  (forall pre sched,
     fst (GuiMain env_init_fail pre sched) <> Some EXIT_FAILURE) /\
  loop (snd (GuiMain env_base_fail [] [Deliver NodeThread])) = Exited 1 /\
  fst (GuiMain env_base_fail [] [Deliver NodeThread]) = Some EXIT_SUCCESS /\
  loop (snd (GuiMain env_init_fail [] startup)) = Exited 1 /\
  fst (GuiMain env_init_fail [] startup) = Some EXIT_SUCCESS /\
  (forall e pre sched,
     count isBaseInitCall (trace (snd (GuiMain e pre sched))) <= 1 /\
     count isExecutorInitialize (trace (snd (GuiMain e pre sched))) <= 1).
Proof.
  assert (Once : forall e pre sched,
     count isBaseInitCall (trace (snd (GuiMain e pre sched))) <= 1 /\
     count isExecutorInitialize (trace (snd (GuiMain e pre sched))) <= 1).
  { intros e pre sched. pose proof (GuiMain_safe e pre sched) as S.
    pose proof (safe_base_once _ _ S). pose proof (safe_exec_once _ _ S).
    lia. }
  repeat (split; [|try exact Once]); [| |vm_compute; reflexivity ..].
  - intros pre sched.
    destruct (GuiController_ctor env_base_fail main_state) as [[x s]|s0]
      eqn:Hc; [vm_compute in Hc; discriminate Hc|].
    rewrite (GuiMain_constructed env_base_fail pre sched s0 eq_refl Hc).
    cbn [fst]. unfold exec_result. destruct (loop _); discriminate.
  - intros pre sched.
    destruct (GuiController_ctor env_init_fail main_state) as [[x s]|s0]
      eqn:Hc; [vm_compute in Hc; discriminate Hc|].
    rewrite (GuiMain_constructed env_init_fail pre sched s0 eq_refl Hc).
    cbn [fst]. unfold exec_result. destruct (loop _); discriminate.
Qed.

(** ** The commands the window logs *)

Lemma logged_as_returned_app_quiet tr d :
  logged_as_returned tr -> existsb isRcvCommands d = false ->
  logged_as_returned (tr ++ d).
Proof.
  intros K Hd p a q E.
  apply app_eq_app in E as [l [[E1 E2] | [E1 E2]]].
  - destruct l as [|x l]; cbn in E2.
    + subst d. discriminate Hd.
    + injection E2 as <- ->. destruct (K _ _ _ E1) as (l0 & q' & Ha & Hin & ->).
      exists l0, (q' ++ d). now rewrite app_assoc.
  - subst d. rewrite existsb_app in Hd. cbn in Hd.
    rewrite orb_true_r in Hd. discriminate Hd.
Qed.

Lemma logged_as_returned_app_rcv tr l :
  logged_as_returned tr -> In (Ext (listRpcCommands l)) tr ->
  logged_as_returned
    (tr ++ Entered BitcoinGUI_rcvCommands (Commands l) :: map log_command l).
Proof.
  intros K Hin p a q E.
  apply app_eq_app in E as [k [[E1 E2] | [E1 E2]]].
  - destruct k as [|x k]; cbn in E2.
    + injection E2 as -> ->. rewrite app_nil_r in E1. subst p.
      exists l, []. now rewrite app_nil_r.
    + injection E2 as <- ->. destruct (K _ _ _ E1) as (l0 & q' & Ha & Hi & ->).
      exists l0, (q' ++ Entered BitcoinGUI_rcvCommands (Commands l)
                          :: map log_command l).
      now rewrite app_assoc.
  - destruct k as [|x k]; cbn in E2.
    + injection E2 as <- <-. rewrite app_nil_r in E1. subst p.
      exists l, []. now rewrite app_nil_r.
    + injection E2 as _ E2. exfalso.
      assert (H : existsb isRcvCommands (map log_command l) = true).
      { rewrite E2, existsb_app. cbn. now rewrite orb_true_r. }
      rewrite existsb_log_commands in H by reflexivity. discriminate H.
Qed.

Lemma logged_as_returned_quiet tr :
  existsb isRcvCommands tr = false -> logged_as_returned tr.
Proof.
  intros H. apply (logged_as_returned_app_quiet [] tr); [|exact H].
  intros [|x p] a q E; discriminate E.
Qed.

Lemma forallb_log_commands P l :
  (forall c, P (log_command c) = true) ->
  forallb P (map log_command l) = true.
Proof. intros H. induction l; cbn; [reflexivity|]. now rewrite H, IHl. Qed.

Ltac count_all :=
  repeat match goal with
  | H : posted_node _ = _ |- _ => rewrite H in *
  end;
  unfold count in *;
  rewrite ?filter_app, ?length_app in *;
  cbn [filter List.length app fst
       isQuitRequested isCloseAccepted isCloseIgnored isListRpc isClick
       isListCommandsCall] in *;
  rewrite ?filter_log_commands by reflexivity;
  cbn [List.length] in *;
  lia.

Ltac forall_fact :=
  rewrite <- ?app_assoc; rewrite ?forallb_app; cbn [forallb app];
  rewrite ?forallb_log_commands by reflexivity;
  repeat match goal with
  | H : forallb _ (trace _) = true |- _ => rewrite H
  end;
  reflexivity.

Ltac rcv_fact Rq :=
  let a0 := fresh "a0" in let Hin := fresh "Hin" in
  let l := fresh "l" in let Hl := fresh "Hl" in
  intros a0 Hin;
  repeat match goal with
  | H : In _ (_ ++ _) |- _ => apply in_app_or in H as [H | H]
  | H : In _ [_] |- _ => destruct H as [H | []]
  | H : (_, _) = (_, _) |- _ => inversion H; clear H; subst
  end;
  [ destruct (Rq a0) as (l & -> & Hl); [eauto using in_cons, in_eq|];
    exists l; split; [reflexivity|];
    repeat rewrite in_app_iff; tauto
  | eexists; split; [reflexivity|];
    repeat rewrite in_app_iff; cbn [In]; tauto ..].

Lemma more_step e a s s' :
  inv e s -> more e s -> transition e s a s' -> more e s'.
Proof.
  intros I M T. destruct T; [exact M | ..];
    destruct I as [Iw Iq Ires Ishow Iclose
                   [Ibase Isucc Iallow Ivis Iexit E1 E2 E3 E4 E5 E6 Inext
                    C1 C2]];
    destruct M as [Qn Qg Qi Sq X0 Nq X1 Xc Th Cq Cl Rc Rq Rv];
    unfold wired, queues_ok, started in *;
    constructor; norm_goal.
  all: try assumption.
  all: try match goal with
       | |- _ <= _ => solve [count_all]
       | |- @eq nat _ _ => solve [count_all]
       | |- forallb _ _ = true => solve [forall_fact]
       end.
  all: try match goal with
       | |- logged_as_returned _ =>
           solve [rewrite <- ?app_assoc;
                  apply logged_as_returned_app_quiet;
                  [assumption | reflexivity]]
       end.
  all: repeat match goal with
       | H : posted_gui _ = _ |- _ => rewrite H in *
       | H : posted_node _ = _ |- _ => rewrite H in *
       | H : posted_init _ = _ |- _ => rewrite H in *
       end.
  all: try match goal with
       | |- forall a, In _ _ -> exists l, _ => solve [rcv_fact Rq]
       end.
  all: try match goal with
       | |- logged_as_returned _ =>
           destruct (Rq a (in_eq _ _)) as (l & -> & Hl);
           apply logged_as_returned_app_rcv; assumption
       end.
  all: rewrite ?existsb_app, ?each_after_app in *.
  all: cbn [existsb each_after app fst orb andb
            isQuitRequested isAppShutdown isQuitApplication isDoClose isExit
            isOnShutdownCall isExecutorShutdownCall isContextShutdownCall
            Z.eqb Pos.eqb] in *.
  all: log_blind.
  all: repeat match goal with
       | H : true = true -> _ |- _ => specialize (H eq_refl)
       end.
  all: rewrite ?orb_false_r, ?orb_true_r, ?andb_true_r in *.
  all: try assumption.
  all: try reflexivity.
  all: try (intros _; reflexivity).
  all: try (intros _; assumption).
  all: try (rewrite existsb_app; cbn [existsb isDoClose orb];
            rewrite orb_true_r, X0; reflexivity).
  all: try (intros _; right; left; assumption).
  all: try (rewrite Sq, Qi; reflexivity).
  all: match goal with
       | H : args_success ?x = false |- _ =>
           intros _; right; right;
           rewrite (Ires x (in_eq _ _)) in H; exact H
       end.
Qed.

Lemma more_run e sched : forall s,
  inv e s -> more e s -> more e (run e sched s).
Proof.
  induction sched as [|a sched IH]; intros s I M; cbn; [exact M|].
  assert (T : transition e s a (step e a s))
    by (apply step_transition; apply I).
  apply IH; [eapply inv_step | eapply more_step]; eassumption.
Qed.

Lemma more_set_loop e l s : more e s -> more e (set_loop l s).
Proof. intros [Qn Qg Qi Sq X0 Nq X1 Xc Th Cq Cl Rc Rq Rv]. now constructor. Qed.

Lemma ctor_more e s :
  GuiController_ctor e main_state = inr s -> more e s.
Proof.
  intros H. destruct e as [pe ce th b rr rc].
  destruct ce as [err|]; destruct th as [[[] x]|]; vm_compute in H.
  all: try discriminate H.
  all: injection H as <-.
  all: constructor;
    try (apply logged_as_returned_quiet; reflexivity);
    vm_compute.
  all: try reflexivity.
  all: try (intros; discriminate).
  all: try lia.
  all: try (intros a []).
  all: try (intros _; left; discriminate).
Qed.

(** Before [exec()] is entered nothing starts the loop. *)
Lemma run_not_started e pre : forall s,
  inv e s -> loop s = NotStarted -> loop (run e pre s) = NotStarted.
Proof.
  induction pre as [|a pre IH]; intros s I Hl; cbn; [exact Hl|].
  assert (T : transition e s a (step e a s))
    by (apply step_transition; apply I).
  apply IH; [eapply inv_step; eassumption|].
  destruct T; norm; try assumption; try congruence.
  all: rewrite Hl; reflexivity.
Qed.

(** The invariants, for every way out of [GuiMain]. *)
Lemma GuiMain_more e pre sched : more e (snd (GuiMain e pre sched)).
Proof.
  destruct (parse_parameters_error e) as [error|] eqn:Hp.
  - unfold GuiMain. rewrite Hp. cbn [snd].
    constructor;
      try (apply logged_as_returned_quiet; reflexivity);
      vm_compute; try reflexivity; try lia;
      try (intros; discriminate); intros a [].
  - destruct (GuiController_ctor e main_state) as [[x s]|s0] eqn:Hc.
    + unfold GuiMain. rewrite Hp.
      change (record (Ext (ParseParameters None))
                (record (Ext SetupServerArgs)
                   (record (Ext SetupEnvironment) init_state)))
        with main_state.
      rewrite Hc. clear Hp.
      destruct e as [pe ce th b rr rc].
      destruct ce as [err|]; destruct th as [[[] y]|]; vm_compute in Hc.
      all: try discriminate Hc.
      all: injection Hc as <- <-.
      all: destruct y; cbn [snd].
      all: constructor;
        try (apply logged_as_returned_quiet; reflexivity);
        vm_compute; try reflexivity; try lia;
        try (intros; discriminate); try (intros a []).
      all: intros _; left; discriminate.
    + rewrite (GuiMain_constructed e pre sched s0 Hp Hc). cbn [snd].
      destruct (ctor_inv e s0 Hc) as [I Hl].
      pose proof (ctor_more e s0 Hc) as M.
      apply more_run.
      * apply inv_set_loop; [discriminate | | apply inv_run; exact I].
        apply run_not_started; assumption.
      * apply more_set_loop. apply more_run; assumption.
Qed.

Lemma isQuitRequested_inv ev :
  isQuitRequested ev = true ->
  exists a, ev = Emitted BitcoinGUI_quitRequested a.
Proof. destruct ev as [|[] a| | | | |]; try discriminate. eauto. Qed.

(** ** The shutdown handshake *)

(** X1.  The shutdown handshake, end to end.  When the window receives a
    close request in a state of a run with nothing pending, and worker,
    window, executor, worker and window take their turns, the trace grows
    by exactly [handshake_events]: [quitRequested], the close event ignored
    (accepted if closing was already allowed), [onShutdown], the executor's
    [shutdown], one [appShutdown], the two [shutdownResult] signals,
    [doClose] and the request to exit with code 0.  Afterwards closing is
    allowed, nothing is pending and [GuiMain] returns 0. *)
Theorem shutdown_handshake e pre sched :
  started (snd (GuiMain e pre sched)) ->
  quiet (snd (GuiMain e pre sched)) ->
  trace (snd (GuiMain e pre (sched ++ close_round))) =
    trace (snd (GuiMain e pre sched))
    ++ handshake_events (m_allow_close (snd (GuiMain e pre sched))) /\
  m_allow_close (snd (GuiMain e pre (sched ++ close_round))) = true /\
  quiet (snd (GuiMain e pre (sched ++ close_round))) /\
  fst (GuiMain e pre (sched ++ close_round)) = Some EXIT_SUCCESS.
Proof.
  intros St (Hg & Hn & Hi).
  destruct (GuiMain_cases e pre sched)
    as [(s0 & Hp & Hc & I & _ & _) | (_ & _ & Hl & _)]; [|contradiction].
  rewrite (GuiMain_constructed e pre (sched ++ close_round) s0 Hp Hc).
  cbn [fst snd]. rewrite run_app.
  rewrite (GuiMain_constructed e pre sched s0 Hp Hc) in *. cbn [snd] in *.
  pose proof (inv_wired _ _ I) as W. clear I Hp Hc.
  revert St Hg Hn Hi.
  generalize dependent (run e sched (set_loop Running (run e pre s0))).
  intros s W. rewrite (wired_eta s W).
  cbn [loop posted_gui posted_node posted_init m_allow_close visible
       rpc_calls trace started].
  generalize (loop s) (posted_gui s) (posted_node s) (posted_init s)
             (m_allow_close s) (visible s) (rpc_calls s) (trace s).
  clear. intros l pg pn pi ac vi n tr St -> -> ->.
  destruct e as [pe ce th b rr rc].
  destruct l; [exfalso; apply St; reflexivity | |].
  all: destruct ac; cbn; repeat split; try reflexivity.
  all: repeat rewrite <- app_assoc; reflexivity.
Qed.

Lemma shutdown_handshake_witness :
  trace (snd (GuiMain env_ok [] (startup ++ close_round))) =
    trace (snd (GuiMain env_ok [] startup)) ++ handshake_events false /\
  trace (snd (GuiMain env_ok [] ((startup ++ close_round) ++ close_round))) =
    trace (snd (GuiMain env_ok [] (startup ++ close_round)))
    ++ handshake_events true.
Proof.
  split.
  - refine (proj1 (shutdown_handshake env_ok [] startup _ _)).
    + vm_compute. discriminate.
    + repeat split; reflexivity.
  - refine (proj1 (shutdown_handshake env_ok [] (startup ++ close_round)
                     _ _)).
    + vm_compute. discriminate.
    + repeat split; reflexivity.
Defined.

(** X2.  In every run the node is shut down only after the window has
    emitted [quitRequested]; and the window emits it once for every close
    event, whether the event is accepted or ignored. *)
Theorem node_shutdown_only_on_close_request e pre sched :
  (forall p q,
     trace (snd (GuiMain e pre sched)) = p ++ Ext appShutdown :: q ->
     exists a, In (Emitted BitcoinGUI_quitRequested a) p) /\
  count isQuitRequested (trace (snd (GuiMain e pre sched)))
  = count isCloseAccepted (trace (snd (GuiMain e pre sched)))
    + count isCloseIgnored (trace (snd (GuiMain e pre sched))).
Proof.
  pose proof (GuiMain_more e pre sched) as M. split.
  - intros p q Htr.
    destruct (each_after_always _ _ _ (more_shutdown_after_quit _ _ M)
                p _ q Htr eq_refl) as (ev & Hin & Hev).
    apply isQuitRequested_inv in Hev as [a ->]. eauto.
  - apply (more_quit_count _ _ M).
Qed.

(** X3.  In every run, under any interleaving: whenever [rcvCommands] runs
    it has been given a list that [listRpcCommands()] returned earlier, and
    the entries it logs are exactly that list, in order, before anything
    else happens; [listRpcCommands()] is never called more often than the
    button was clicked, and the worker's call counter equals the number of
    calls made. *)
Theorem window_logs_only_returned_commands e pre sched :
  logged_as_returned (trace (snd (GuiMain e pre sched))) /\
  count isListRpc (trace (snd (GuiMain e pre sched)))
  <= count isClick (trace (snd (GuiMain e pre sched))) /\
  rpc_calls (snd (GuiMain e pre sched))
  = count isListRpc (trace (snd (GuiMain e pre sched))).
Proof.
  pose proof (GuiMain_more e pre sched) as M.
  split; [apply M|]. split; [|apply M].
  pose proof (more_clicks _ _ M). lia.
Qed.

Lemma window_logs_only_returned_commands_witness :
  exists l q',
    Commands sample_commands = Commands l /\
    In (Ext (listRpcCommands l))
       (trace (snd (GuiMain env_ok []
                      (startup ++ [Click; Deliver NodeThread])))) /\
    [Log Debug [Text "getblockcount"]; Log Debug [Text "help"];
     Log Debug [Text "stop"]] = map log_command l ++ q'.
Proof.
  refine (proj1 (window_logs_only_returned_commands
                   env_ok [] (startup ++ click_round)) _ _ _ _).
  vm_compute. reflexivity.
Defined.

(** ** Exit requests *)

(** X4.  In every run an exit with code 0 is requested only after
    [doClose] has run; [NodeWorker::quitApplication], which nothing is
    connected to, never runs; and every exit request asks for code 0 or
    code 1. *)
Theorem exit_requests e pre sched :
  (forall p q,
     trace (snd (GuiMain e pre sched)) = p ++ ExitRequested 0 :: q ->
     exists a, In (Entered BitcoinGUI_doClose a) p) /\
  (forall a,
     ~ In (Entered NodeWorker_quitApplication a)
          (trace (snd (GuiMain e pre sched)))) /\
  (forall code,
     In (ExitRequested code) (trace (snd (GuiMain e pre sched))) ->
     code = 0%Z \/ code = 1%Z).
Proof.
  pose proof (GuiMain_more e pre sched) as M. split; [|split].
  - intros p q Htr.
    destruct (each_after_always _ _ _ (more_exit0_after_doClose _ _ M)
                p _ q Htr eq_refl) as (ev & Hin & Hev).
    apply isDoClose_inv in Hev as [a ->]. eauto.
  - intros a.
    apply (existsb_false_not_In isQuitApplication);
      [apply M | reflexivity].
  - intros code Hin.
    pose proof (more_exit_codes _ _ M) as H.
    rewrite forallb_forall in H. specialize (H _ Hin). cbn in H.
    apply orb_prop in H as [H | H]; apply Z.eqb_eq in H; auto.
Qed.

Lemma exit_requests_witness :
  In (ExitRequested 0)
     (trace (snd (GuiMain env_ok [] (startup ++ close_round)))) /\
  (1 = 0 \/ 1 = 1)%Z.
Proof.
  split; [vm_compute; tauto|].
  refine (proj2 (proj2 (exit_requests env_init_fail [] startup)) 1%Z _).
  vm_compute. tauto.
Defined.

(** X5.  When the configuration file parses, [baseInitialize()] returns
    true and full initialization reports success, no run ever requests exit
    code 1. *)
Theorem no_exit_1_without_failure e pre sched :
  init_config_error e = None ->
  base_initialize_result e = true ->
  fst (app_init_result e) = true ->
  ~ In (ExitRequested 1) (trace (snd (GuiMain e pre sched))).
Proof.
  intros Hc Hb Hs.
  pose proof (GuiMain_more e pre sched) as M.
  apply (existsb_false_not_In (isExit 1)); [|reflexivity].
  destruct (existsb (isExit 1) _) eqn:E; [|reflexivity].
  destruct (more_exit1 _ _ M E) as [H | [H | H]]; congruence.
Qed.

Lemma no_exit_1_without_failure_witness :
  ~ In (ExitRequested 1)
       (trace (snd (GuiMain env_ok []
                      (startup ++ click_round ++ close_round)))).
Proof.
  exact (no_exit_1_without_failure env_ok []
           (startup ++ click_round ++ close_round)
           eq_refl eq_refl eq_refl).
Defined.

(** ** Threads *)

(** X8.  Every log entry that streams the current thread id carries the
    thread its object lives on: the worker's slots log the worker's thread,
    the controller's constructor the GUI thread. *)
Theorem slots_log_their_own_thread e pre sched lvl text t :
  In (Log lvl [Text text; ThreadId t]) (trace (snd (GuiMain e pre sched))) ->
  t = if String.prefix "NodeController::" text then NodeThread
      else GuiThread.
Proof.
  intros Hin. pose proof (GuiMain_more e pre sched) as M.
  pose proof (more_threads _ _ M) as H.
  rewrite forallb_forall in H. specialize (H _ Hin). cbn in H.
  destruct (String.prefix _ text); destruct t; try discriminate H;
    reflexivity.
Qed.

Lemma slots_log_their_own_thread_witness :
  NodeThread =
    if String.prefix "NodeController::" "NodeController::listCommands()"
    then NodeThread else GuiThread.
Proof.
  refine (slots_log_their_own_thread env_ok [] (startup ++ click_round)
            Debug "NodeController::listCommands()" NodeThread _).
  vm_compute. tauto.
Defined.

(** ** Failures at start-up *)

Lemma run_deliver_quiet e sched : forall s,
  quiet s -> forallb is_deliver sched = true -> run e sched s = s.
Proof.
  induction sched as [|a sched IH]; intros s Q H; cbn; [reflexivity|].
  cbn in H. apply andb_prop in H as [Ha H].
  destruct a as [t| |]; try discriminate Ha.
  replace (step e (Deliver t) s) with s; [apply IH; assumption|].
  destruct Q as (Qg & Qn & Qi).
  unfold step, deliver. destruct (thread_active t s); [|reflexivity].
  destruct t; cbn [queue_of]; [rewrite Qg | rewrite Qn | rewrite Qi];
    reflexivity.
Qed.

(** X6.  When a call of the controller's constructor throws, [GuiMain]
    returns 1 and nothing has been started: the worker's thread is not
    running, no call is pending on any thread, [initNode] was not emitted
    and [baseInitialize()] was not called. *)
Theorem constructor_exception_starts_nothing e pre sched x s :
  parse_parameters_error e = None ->
  GuiController_ctor e main_state = inl (x, s) ->
  fst (GuiMain e pre sched) = Some EXIT_FAILURE /\
  node_thread_running (snd (GuiMain e pre sched)) = false /\
  quiet (snd (GuiMain e pre sched)) /\
  (forall a,
     ~ In (Emitted GuiController_initNode a)
          (trace (snd (GuiMain e pre sched)))) /\
  count isBaseInitCall (trace (snd (GuiMain e pre sched))) = 0.
Proof.
  intros Hp Hc. unfold GuiMain. rewrite Hp.
  change (record (Ext (ParseParameters None))
            (record (Ext SetupServerArgs)
               (record (Ext SetupEnvironment) init_state)))
    with main_state.
  rewrite Hc. clear Hp.
  destruct e as [pe ce th b rr rc].
  destruct ce as [err|]; destruct th as [[[] y]|]; vm_compute in Hc.
  all: try discriminate Hc.
  all: injection Hc as <- <-.
  all: destruct y; cbn [fst snd].
  all: split; [reflexivity|]; split; [reflexivity|].
  all: split; [repeat split; reflexivity|].
  all: split; [|reflexivity].
  all: intros a; apply (existsb_false_not_In isInitNode); reflexivity.
Qed.

Lemma constructor_exception_starts_nothing_witness :
  fst (GuiMain env_throw [Deliver NodeThread] startup) = Some 1%Z /\
  node_thread_running (snd (GuiMain env_throw [Deliver NodeThread] startup))
    = false /\
  count isBaseInitCall
    (trace (snd (GuiMain env_throw [Deliver NodeThread] startup))) = 0.
Proof.
  destruct (constructor_exception_starts_nothing
              env_throw [Deliver NodeThread] startup
              (StdException "std::bad_alloc")
              (snd (match GuiController_ctor env_throw main_state with
                    | inl p => p
                    | inr s => (OtherException, s)
                    end))
              eq_refl eq_refl) as (A & B & _ & _ & C).
  exact (conj A (conj B C)).
Defined.

(** X7.  When [baseInitialize()] fails while the GUI thread has not yet
    entered [exec()], the worker's [exit(1)] is requested with no event loop
    running and is lost: whatever the threads do afterwards, without user
    input the loop keeps running, the window stays hidden and [GuiMain]
    does not return. *)
Theorem exit_request_lost_before_exec e sched :
  parse_parameters_error e = None ->
  throws e = None ->
  base_initialize_result e = false ->
  forallb is_deliver sched = true ->
  fst (GuiMain e [Deliver NodeThread] sched) = None /\
  loop (snd (GuiMain e [Deliver NodeThread] sched)) = Running /\
  visible (snd (GuiMain e [Deliver NodeThread] sched)) = false /\
  In (ExitRequested 1) (trace (snd (GuiMain e [Deliver NodeThread] sched))).
Proof.
  destruct e as [pe ce th b rr rc]. cbn. intros -> -> -> Hs.
  match goal with
  | |- context [GuiMain ?e _ _] => set (ee := e)
  end.
  destruct (GuiController_ctor ee main_state) as [[x s]|s0] eqn:Hc;
    [subst ee; destruct ce; vm_compute in Hc; discriminate Hc|].
  rewrite (GuiMain_constructed ee [Deliver NodeThread] sched s0 eq_refl Hc).
  cbn [fst snd].
  assert (Q : quiet (set_loop Running (run ee [Deliver NodeThread] s0))).
  { subst ee. destruct ce; vm_compute in Hc; injection Hc as <-;
      repeat split; reflexivity. }
  rewrite (run_deliver_quiet ee sched _ Q Hs).
  subst ee. destruct ce; vm_compute in Hc; injection Hc as <-;
    vm_compute; repeat split; tauto.
Qed.

Lemma exit_request_lost_before_exec_witness :
  fst (GuiMain env_base_fail [Deliver NodeThread] startup) = None /\
  In (ExitRequested 1)
     (trace (snd (GuiMain env_base_fail [Deliver NodeThread] startup))).
Proof.
  destruct (exit_request_lost_before_exec env_base_fail startup
              eq_refl eq_refl eq_refl eq_refl) as (A & _ & _ & B).
  exact (conj A B).
Defined.

(** ** Panels *)

Lemma load_destroys_nothing p c :
  destroyed (GuiController_load p c) = destroyed c /\
  central (GuiController_load p c) = Panel_widget p c /\
  m_current_panel (GuiController_load p c) = Some p.
Proof.
  unfold GuiController_load, QMainWindow_takeCentralWidget,
    QMainWindow_setCentralWidget, Panel_widget, is_destroyed.
  cbn. repeat split; reflexivity.
Qed.

(** X9.  [GuiController::load] never destroys a widget: after any sequence
    of loads the destroyed widgets are the same as before, the central
    widget is the widget of the panel loaded last (none if that widget had
    been destroyed) and that panel is the current one.  A bare
    [setCentralWidget] with a different widget does destroy the one it
    replaces, which is what taking the old widget first avoids. *)
Theorem load_all_destroys_nothing panels c :
  destroyed (load_all panels c) = destroyed c /\
  match rev panels with
  | [] => load_all panels c = c
  | p :: _ =>
      central (load_all panels c) = Panel_widget p c /\
      m_current_panel (load_all panels c) = Some p
  end /\
  (forall old w,
     central c = Some old -> w <> Some old ->
     In old (destroyed (QMainWindow_setCentralWidget w c))).
Proof.
  split; [|split].
  - unfold load_all. revert c.
    induction panels as [|p panels IH]; intros c; cbn; [reflexivity|].
    rewrite IH. apply load_destroys_nothing.
  - induction panels as [|p panels IH] using rev_ind; [reflexivity|].
    rewrite rev_app_distr. cbn [rev app].
    unfold load_all in *. rewrite fold_left_app. cbn [fold_left].
    destruct (load_destroys_nothing p (fold_left
                (fun c p => GuiController_load p c) panels c))
      as (D & C & P).
    split; [|exact P]. rewrite C.
    unfold Panel_widget, is_destroyed.
    assert (E : destroyed (fold_left
                (fun c p => GuiController_load p c) panels c) = destroyed c).
    { clear. revert c.
      induction panels as [|q panels IH]; intros c; cbn; [reflexivity|].
      rewrite IH. apply load_destroys_nothing. }
    now rewrite E.
  - intros old w Hc Hw. unfold QMainWindow_setCentralWidget.
    rewrite Hc. cbn [destroyed].
    destruct w as [new|]; [|left; reflexivity].
    destruct (Nat.eqb old new) eqn:E; [|left; reflexivity].
    apply Nat.eqb_eq in E. subst. contradiction.
Qed.

Lemma load_all_destroys_nothing_witness :
  destroyed (load_all [Panel_ctor 2; Panel_ctor 3] (mkCentral (Some 1) [] None))
    = [] /\
  central (load_all [Panel_ctor 2; Panel_ctor 3] (mkCentral (Some 1) [] None))
    = Some 3 /\
  In 1 (destroyed (QMainWindow_setCentralWidget (Some 2)
                     (mkCentral (Some 1) [] None))).
Proof.
  destruct (load_all_destroys_nothing [Panel_ctor 2; Panel_ctor 3]
              (mkCentral (Some 1) [] None)) as (A & (B & _) & C).
  split; [exact A|]. split; [exact B|].
  apply (C 1 (Some 2) eq_refl). discriminate.
Defined.

(** ** Whose state a thread touches *)

(** X10.  A thread changes only the state of its own objects: a turn of the
    worker's or the executor's thread leaves [m_allow_close] and the
    window's visibility as they are, and a turn of the GUI thread or the
    executor's thread leaves the worker's call counter as it is. *)
Theorem state_changes_on_its_own_thread e pre sched t :
  started (snd (GuiMain e pre sched)) ->
  (t <> GuiThread ->
   m_allow_close (snd (GuiMain e pre (sched ++ [Deliver t])))
     = m_allow_close (snd (GuiMain e pre sched)) /\
   visible (snd (GuiMain e pre (sched ++ [Deliver t])))
     = visible (snd (GuiMain e pre sched))) /\
  (t <> NodeThread ->
   rpc_calls (snd (GuiMain e pre (sched ++ [Deliver t])))
     = rpc_calls (snd (GuiMain e pre sched))).
Proof.
  intros St. rewrite GuiMain_app by exact St.
  destruct (GuiMain_cases e pre sched)
    as [(s0 & _ & _ & I & _ & _) | (_ & _ & Hl & _)]; [|contradiction].
  cbn [run fold_left].
  assert (T : transition e (snd (GuiMain e pre sched)) (Deliver t)
                (step e (Deliver t) (snd (GuiMain e pre sched))))
    by (apply step_transition; apply I).
  remember (Deliver t) as a eqn:Ea.
  split; intros Ht; destruct T; try discriminate Ea;
    try (injection Ea as <-; contradiction); norm; auto.
Qed.

Lemma state_changes_on_its_own_thread_witness :
  visible (snd (GuiMain env_ok []
                  ([Deliver NodeThread; Deliver InitThread]
                   ++ [Deliver NodeThread])))
  = visible (snd (GuiMain env_ok [] [Deliver NodeThread; Deliver InitThread])).
Proof.
  refine (proj2 (proj1 (state_changes_on_its_own_thread env_ok []
            [Deliver NodeThread; Deliver InitThread] NodeThread _) _)).
  - vm_compute. discriminate.
  - discriminate.
Defined.

(** ** Clicks while other work is pending *)

(** X11.  Requests queue up in order.  In any state of a run once the loop
    has started: a click appends one [listCommands] call to the worker's
    queue and leaves the window's queue alone; the worker, reaching such a
    call, removes it, calls [listRpcCommands()] once and appends one
    [rcvCommands] call with the result to the window's queue; the window,
    reaching that call, removes it and logs its strings one by one. *)
Theorem click_path_with_pending_work e pre sched :
  started (snd (GuiMain e pre sched)) ->
  (posted_node (snd (GuiMain e pre (sched ++ [Click])))
     = posted_node (snd (GuiMain e pre sched))
       ++ [(NodeWorker_listCommands, NoArgs)] /\
   posted_gui (snd (GuiMain e pre (sched ++ [Click])))
     = posted_gui (snd (GuiMain e pre sched))) /\
  (forall a q,
     posted_node (snd (GuiMain e pre sched))
       = (NodeWorker_listCommands, a) :: q ->
     posted_node (snd (GuiMain e pre (sched ++ [Deliver NodeThread]))) = q /\
     posted_gui (snd (GuiMain e pre (sched ++ [Deliver NodeThread])))
       = posted_gui (snd (GuiMain e pre sched))
         ++ [(BitcoinGUI_rcvCommands,
              Commands (rpc_commands e
                          (rpc_calls (snd (GuiMain e pre sched)))))] /\
     rpc_calls (snd (GuiMain e pre (sched ++ [Deliver NodeThread])))
       = S (rpc_calls (snd (GuiMain e pre sched)))) /\
  (forall a q,
     posted_gui (snd (GuiMain e pre sched))
       = (BitcoinGUI_rcvCommands, a) :: q ->
     posted_gui (snd (GuiMain e pre (sched ++ [Deliver GuiThread]))) = q /\
     trace (snd (GuiMain e pre (sched ++ [Deliver GuiThread])))
       = trace (snd (GuiMain e pre sched))
         ++ Entered BitcoinGUI_rcvCommands a
            :: map log_command (args_commands a)).
Proof.
  intros St. rewrite !GuiMain_app by exact St.
  destruct (GuiMain_cases e pre sched)
    as [(s0 & _ & _ & I & _ & _) | (_ & _ & Hl & _)]; [|contradiction].
  pose proof (inv_wired _ _ I) as W. clear I.
  revert St. generalize dependent (snd (GuiMain e pre sched)).
  intros s W St. cbn [run fold_left].
  split; [|split].
  - revert St. rewrite (wired_eta s W).
    cbn [loop posted_gui posted_node posted_init m_allow_close visible
         rpc_calls trace started].
    generalize (loop s) (posted_gui s) (posted_node s) (posted_init s)
               (m_allow_close s) (visible s) (rpc_calls s) (trace s).
    clear. intros l pg pn pi ac vi n tr St.
    destruct l; [exfalso; apply St; reflexivity | |];
      split; reflexivity.
  - intros a q Hq. revert St Hq. rewrite (wired_eta s W).
    cbn [loop posted_gui posted_node posted_init m_allow_close visible
         rpc_calls trace started].
    generalize (loop s) (posted_gui s) (posted_node s) (posted_init s)
               (m_allow_close s) (visible s) (rpc_calls s) (trace s).
    clear. intros l pg pn pi ac vi n tr St ->.
    repeat split; reflexivity.
  - intros a q Hq. rewrite (deliver_rcvCommands e s a q St Hq).
    split; reflexivity.
Qed.

Lemma click_path_with_pending_work_witness :
  posted_node (snd (GuiMain env_ok [] ((startup ++ [Click]) ++ [Click])))
  = [(NodeWorker_listCommands, NoArgs); (NodeWorker_listCommands, NoArgs)].
Proof.
  refine (eq_trans (proj1 (proj1 (click_path_with_pending_work
            env_ok [] (startup ++ [Click]) _))) _).
  - vm_compute. discriminate.
  - reflexivity.
Defined.

(** ** Every reported success reaches the window *)

Ltac account_fact :=
  unfold count in *;
  rewrite ?filter_app, ?length_app in *;
  cbn [filter List.length app fst
       isReportedOk isInitResultOk isInitSuccess isShow
       isResultOkCall isShowCall] in *;
  rewrite ?filter_log_commands by reflexivity;
  cbn [List.length] in *;
  lia.

Lemma accounted_step e a s s' :
  inv e s -> accounted s -> transition e s a s' -> accounted s'.
Proof.
  intros I A T.
  pose proof (inv_results _ _ I) as Ires.
  destruct A as [A1 A2 A3].
  destruct T; [constructor; assumption | ..]; constructor; norm_goal.
  all: repeat match goal with
       | H : posted_gui _ = _ |- _ => rewrite H in *
       | H : posted_node _ = _ |- _ => rewrite H in *
       | H : posted_init _ = _ |- _ => rewrite H in *
       end.
  all: try match goal with
       | H : args_success ?x = _ |- _ =>
           rewrite (Ires x (in_eq _ _)) in *; cbn [args_success] in H;
           rewrite H in *
       end.
  all: try solve [account_fact].
  all: destruct (fst (app_init_result e)); account_fact.
Qed.

Lemma accounted_run e sched : forall s,
  inv e s -> accounted s -> accounted (run e sched s).
Proof.
  induction sched as [|a sched IH]; intros s I A; cbn; [exact A|].
  assert (T : transition e s a (step e a s))
    by (apply step_transition; apply I).
  apply IH; [eapply inv_step | eapply accounted_step]; eassumption.
Qed.

Lemma ctor_accounted e s :
  GuiController_ctor e main_state = inr s -> accounted s.
Proof.
  intros H. destruct e as [pe ce th b rr rc].
  destruct ce as [err|]; destruct th as [[[] x]|]; vm_compute in H.
  all: try discriminate H.
  all: injection H as <-.
  all: constructor; reflexivity.
Qed.

(** The worker serving the call at the head of its queue: the call is
    removed, nothing is added behind it, and nothing is reported. *)
Lemma worker_turn e s m a q :
  wired s -> node_call (m, a) = true ->
  posted_node s = (m, a) :: q ->
  posted_node (step e (Deliver NodeThread) s) = q /\
  filter isReportedOk (trace (step e (Deliver NodeThread) s))
  = filter isReportedOk (trace s).
Proof.
  intros W G Hq. revert Hq. rewrite (wired_eta s W).
  cbn [loop posted_gui posted_node posted_init m_allow_close visible
       rpc_calls trace].
  generalize (loop s) (posted_gui s) (posted_node s) (posted_init s)
             (m_allow_close s) (visible s) (rpc_calls s) (trace s).
  clear W. intros l pg pn pi ac vi n tr ->.
  destruct e as [pe ce th b rr rc].
  destruct m; try discriminate G.
  all: try destruct b; try destruct a as [| |[] ?]; cbn.
  all: split; [reflexivity|].
  all: rewrite ?filter_app; cbn [filter isReportedOk];
    rewrite ?app_nil_r; reflexivity.
Qed.

(** The GUI thread serving the call at the head of its queue: the call is
    removed, nothing is added behind it or given to the worker, and neither
    a report nor an [initSuccess] is made. *)
Lemma gui_turn e s m a q :
  wired s -> started s -> gui_call (m, a) = true ->
  posted_gui s = (m, a) :: q ->
  posted_gui (step e (Deliver GuiThread) s) = q /\
  posted_node (step e (Deliver GuiThread) s) = posted_node s /\
  filter isReportedOk (trace (step e (Deliver GuiThread) s))
  = filter isReportedOk (trace s).
Proof.
  intros W St G Hq. destruct m; try discriminate G.
  - rewrite (deliver_rcvCommands e s a q St Hq).
    cbn [posted_gui posted_node trace records set_queue].
    split; [reflexivity|]. split; [reflexivity|].
    rewrite filter_app. cbn [filter isReportedOk].
    rewrite filter_log_commands by reflexivity. apply app_nil_r.
  - revert St Hq. rewrite (wired_eta s W).
    cbn [loop posted_gui posted_node posted_init m_allow_close visible
         rpc_calls trace started].
    generalize (loop s) (posted_gui s) (posted_node s) (posted_init s)
               (m_allow_close s) (visible s) (rpc_calls s) (trace s).
    clear W. intros l pg pn pi ac vi n tr St ->.
    destruct l; [exfalso; apply St; reflexivity | |]; cbn.
    all: split; [reflexivity|]; split; [reflexivity|].
    all: rewrite ?filter_app; cbn [filter isReportedOk];
      rewrite ?app_nil_r; reflexivity.
  - revert St Hq. rewrite (wired_eta s W).
    cbn [loop posted_gui posted_node posted_init m_allow_close visible
         rpc_calls trace started].
    generalize (loop s) (posted_gui s) (posted_node s) (posted_init s)
               (m_allow_close s) (visible s) (rpc_calls s) (trace s).
    clear W. intros l pg pn pi ac vi n tr St ->.
    destruct l; [exfalso; apply St; reflexivity | |]; cbn.
    all: split; [reflexivity|]; split; [reflexivity|].
    all: rewrite ?filter_app; cbn [filter isReportedOk];
      rewrite ?app_nil_r; reflexivity.
  - revert St Hq. rewrite (wired_eta s W).
    cbn [loop posted_gui posted_node posted_init m_allow_close visible
         rpc_calls trace started].
    generalize (loop s) (posted_gui s) (posted_node s) (posted_init s)
               (m_allow_close s) (visible s) (rpc_calls s) (trace s).
    clear W. intros l pg pn pi ac vi n tr St ->.
    destruct l; [exfalso; apply St; reflexivity | |]; cbn.
    all: split; [reflexivity|]; split; [reflexivity|].
    all: rewrite ?filter_app; cbn [filter isReportedOk];
      rewrite ?app_nil_r; reflexivity.
Qed.

Lemma serve_worker e : forall n s,
  inv e s -> List.length (posted_node s) = n ->
  posted_node (run e (serve NodeThread n) s) = [] /\
  filter isReportedOk (trace (run e (serve NodeThread n) s))
  = filter isReportedOk (trace s).
Proof.
  induction n as [|n IH]; intros s I Hn.
  - apply length_zero_iff_nil in Hn. now split.
  - destruct (posted_node s) as [|[m a] q] eqn:Hq; [discriminate Hn|].
    injection Hn as Hn.
    assert (G : node_call (m, a) = true).
    { destruct (inv_queues _ _ I) as (_ & G & _).
      rewrite Hq in G. cbn [forallb] in G. now apply andb_prop in G. }
    destruct (worker_turn e s m a q (inv_wired _ _ I) G Hq) as (P & F).
    assert (I' : inv e (step e (Deliver NodeThread) s)).
    { eapply inv_step; [exact I|]. apply step_transition; apply I. }
    rewrite <- P in Hn. destruct (IH _ I' Hn) as (P' & F').
    change (run e (serve NodeThread (S n)) s)
      with (run e (serve NodeThread n) (step e (Deliver NodeThread) s)).
    split; [exact P' | now rewrite F'].
Qed.

Lemma serve_gui e : forall n s,
  inv e s -> started s -> List.length (posted_gui s) = n ->
  posted_gui (run e (serve GuiThread n) s) = [] /\
  posted_node (run e (serve GuiThread n) s) = posted_node s /\
  filter isReportedOk (trace (run e (serve GuiThread n) s))
  = filter isReportedOk (trace s).
Proof.
  induction n as [|n IH]; intros s I St Hn.
  - apply length_zero_iff_nil in Hn. now repeat split.
  - destruct (posted_gui s) as [|[m a] q] eqn:Hq; [discriminate Hn|].
    injection Hn as Hn.
    assert (G : gui_call (m, a) = true).
    { destruct (inv_queues _ _ I) as (G & _).
      rewrite Hq in G. cbn [forallb] in G. now apply andb_prop in G. }
    destruct (gui_turn e s m a q (inv_wired _ _ I) St G Hq) as (P & N & F).
    assert (T : transition e s (Deliver GuiThread)
                  (step e (Deliver GuiThread) s))
      by (apply step_transition; apply I).
    assert (I' : inv e (step e (Deliver GuiThread) s))
      by (eapply inv_step; eassumption).
    assert (St' : started (step e (Deliver GuiThread) s))
      by (eapply transition_started; eassumption).
    rewrite <- P in Hn. destruct (IH _ I' St' Hn) as (P' & N' & F').
    change (run e (serve GuiThread (S n)) s)
      with (run e (serve GuiThread n) (step e (Deliver GuiThread) s)).
    split; [exact P'|]. split; [now rewrite N' | now rewrite F'].
Qed.

(** When [GuiMain] has returned without entering [exec()], the schedule
    played no part and nothing was reported. *)
Lemma GuiMain_not_started e pre sched sched' :
  loop (snd (GuiMain e pre sched)) = NotStarted ->
  GuiMain e pre sched' = GuiMain e pre sched /\
  count isShow (trace (snd (GuiMain e pre sched))) = 0 /\
  count isReportedOk (trace (snd (GuiMain e pre sched))) = 0 /\
  accounted (snd (GuiMain e pre sched)).
Proof.
  intros Hl.
  destruct (parse_parameters_error e) as [error|] eqn:Hp.
  - unfold GuiMain. rewrite Hp. cbn [snd].
    repeat split; reflexivity.
  - destruct (GuiController_ctor e main_state) as [[x s]|s0] eqn:Hc.
    + unfold GuiMain. rewrite Hp.
      change (record (Ext (ParseParameters None))
                (record (Ext SetupServerArgs)
                   (record (Ext SetupEnvironment) init_state)))
        with main_state.
      rewrite Hc. clear Hp Hl.
      destruct e as [pe ce th b rr rc].
      destruct ce as [err|]; destruct th as [[[] y]|]; vm_compute in Hc.
      all: try discriminate Hc.
      all: injection Hc as <- <-.
      all: destruct y; cbn [snd].
      all: repeat split; reflexivity.
    + exfalso.
      rewrite (GuiMain_constructed e pre sched s0 Hp Hc) in Hl.
      cbn [snd] in Hl.
      destruct (constructed_inv e pre sched s0 Hc) as [_ St].
      exact (St Hl).
Qed.

Lemma GuiMain_accounted e pre sched : accounted (snd (GuiMain e pre sched)).
Proof.
  destruct (GuiMain_cases e pre sched)
    as [(s0 & Hp & Hc & _) | (_ & _ & Hl & _)].
  - rewrite (GuiMain_constructed e pre sched s0 Hp Hc). cbn [snd].
    destruct (ctor_inv e s0 Hc) as [I Hl].
    pose proof (ctor_accounted e s0 Hc) as A.
    apply accounted_run.
    + apply inv_set_loop; [discriminate | | apply inv_run; exact I].
      apply run_not_started; assumption.
    + pose proof (accounted_run e pre s0 I A) as [A1 A2 A3].
      constructor; assumption.
  - apply (GuiMain_not_started e pre sched sched Hl).
Qed.

(** C4.  In every run the window is shown only after the worker has emitted
    [initSuccess], which it emits only from [initializeResult] called with
    success; when full initialization reports failure the window is never
    shown and stays invisible.  Conversely, in every run, whatever was done
    before [exec()] was entered: each report of success is handled by the
    worker (twice) or still waits in its queue, each handling emits
    [initSuccess], and each [initSuccess] has had its [show] run or still
    waits in the GUI thread's queue; once the worker and then the GUI thread
    have served what is pending, [show] has run twice for every report of
    success.  The start-up schedule ends with the window shown. *)
Theorem window_shown_iff_init_success e pre sched :
  (forall p a q,
     trace (snd (GuiMain e pre sched)) = p ++ Entered QMainWindow_show a :: q ->
     exists a', In (Emitted NodeWorker_initSuccess a') p) /\
  (forall p a q,
     trace (snd (GuiMain e pre sched))
       = p ++ Emitted NodeWorker_initSuccess a :: q ->
     exists t,
       In (Entered NodeWorker_initializeResult (InitResult true t)) p) /\
  (fst (app_init_result e) = false ->
   visible (snd (GuiMain e pre sched)) = false /\
   forall a,
     ~ In (Entered QMainWindow_show a) (trace (snd (GuiMain e pre sched)))) /\
  (parse_parameters_error e = None ->
   throws e = None ->
   base_initialize_result e = true ->
   fst (app_init_result e) = true ->
   visible (snd (GuiMain e [] startup)) = true /\
   In (Entered QMainWindow_show NoArgs)
      (trace (snd (GuiMain e [] startup)))) /\
  (2 * count isReportedOk (trace (snd (GuiMain e pre sched)))
   = count isInitResultOk (trace (snd (GuiMain e pre sched)))
     + count isResultOkCall (posted_node (snd (GuiMain e pre sched))) /\
   count isInitResultOk (trace (snd (GuiMain e pre sched)))
   = count isInitSuccess (trace (snd (GuiMain e pre sched))) /\
   count isInitSuccess (trace (snd (GuiMain e pre sched)))
   = count isShow (trace (snd (GuiMain e pre sched)))
     + count isShowCall (posted_gui (snd (GuiMain e pre sched)))) /\
  (let sched1 :=
     sched ++ serve NodeThread
                (List.length (posted_node (snd (GuiMain e pre sched)))) in
   let sched2 :=
     sched1 ++ serve GuiThread
                 (List.length (posted_gui (snd (GuiMain e pre sched1)))) in
   count isShow (trace (snd (GuiMain e pre sched2)))
   = 2 * count isReportedOk (trace (snd (GuiMain e pre sched)))).
Proof.
  pose proof (GuiMain_safe e pre sched) as S.
  split; [|split; [|split; [|split; [|split]]]].
  - intros p a q Htr.
    destruct (each_after_always _ _ _ (safe_show_after_success _ _ S)
                p _ q Htr eq_refl) as (ev & Hin & Hev).
    apply isInitSuccess_inv in Hev as [a' ->]. eauto.
  - intros p a q Htr.
    destruct (each_after_always _ _ _ (safe_success_after_result _ _ S)
                p _ q Htr eq_refl) as (ev & Hin & Hev).
    apply isInitResultOk_inv in Hev as [t ->]. eauto.
  - intros Hf.
    assert (E : existsb isShow (trace (snd (GuiMain e pre sched))) = false).
    { destruct (existsb isShow _) eqn:E; [|reflexivity].
      pose proof (each_after_exists _ _ _ (safe_show_after_success _ _ S) E)
        as B.
      apply (safe_success _ _ S) in B. congruence. }
    split.
    + destruct (visible _) eqn:V; [|reflexivity].
      apply (safe_visible _ _ S) in V. congruence.
    + intros a. apply (existsb_false_not_In isShow); [exact E | reflexivity].
  - clear S. destruct e as [pe ce th b [rv tip] rc]. cbn.
    intros -> -> -> ->. destruct ce; vm_compute; tauto.
  - destruct (GuiMain_accounted e pre sched) as [A1 A2 A3].
    repeat split; assumption.
  - clear S. cbv zeta.
    destruct (GuiMain_cases e pre sched)
      as [(s0 & Hp & Hc & I & St & _) | (_ & _ & Hl & _)].
    + set (s := snd (GuiMain e pre sched)) in *.
      set (sched1 := sched ++ serve NodeThread (List.length (posted_node s))).
      assert (E1 : snd (GuiMain e pre sched1)
                   = run e (serve NodeThread (List.length (posted_node s))) s)
        by (apply GuiMain_app; exact St).
      destruct (serve_worker e _ s I eq_refl) as (N1 & F1).
      rewrite <- E1 in N1, F1.
      assert (I1 : inv e (snd (GuiMain e pre sched1)))
        by (rewrite E1; apply inv_run; exact I).
      assert (St1 : started (snd (GuiMain e pre sched1)))
        by (rewrite E1; apply run_started; assumption).
      set (s1 := snd (GuiMain e pre sched1)) in *.
      assert (E2 : snd (GuiMain e pre
                          (sched1 ++ serve GuiThread
                                       (List.length (posted_gui s1))))
                   = run e (serve GuiThread (List.length (posted_gui s1))) s1)
        by (apply GuiMain_app; exact St1).
      destruct (serve_gui e _ s1 I1 St1 eq_refl) as (G2 & N2 & F2).
      rewrite <- E2 in G2, N2, F2.
      destruct (GuiMain_accounted e pre
                  (sched1 ++ serve GuiThread (List.length (posted_gui s1))))
        as [A1 A2 A3].
      rewrite G2 in A3. rewrite N2, N1 in A1.
      unfold count in *. rewrite F2, F1 in A1. cbn [filter List.length] in *.
      lia.
    + destruct (GuiMain_not_started e pre sched
                  (sched ++ serve NodeThread
                     (List.length (posted_node (snd (GuiMain e pre sched)))))
                  Hl) as (E1 & Sh & Rp & _).
      rewrite E1.
      destruct (GuiMain_not_started e pre sched
                  (sched ++ serve GuiThread
                     (List.length (posted_gui (snd (GuiMain e pre sched)))))
                  Hl) as (E2 & _).
      destruct (GuiMain_not_started e pre sched
                  ((sched ++ serve NodeThread
                      (List.length
                         (posted_node (snd (GuiMain e pre sched)))))
                   ++ serve GuiThread
                        (List.length
                           (posted_gui (snd (GuiMain e pre sched)))))
                  Hl) as (E3 & _).
      rewrite E3, Sh, Rp. reflexivity.
Qed.

Lemma window_shown_iff_init_success_witness :
  count isShow
    (trace (snd (GuiMain env_ok [Deliver NodeThread; Deliver InitThread]
                   (serve NodeThread 2 ++ serve GuiThread 2)))) = 2 /\
  (visible (snd (GuiMain env_ok [] startup)) = true /\
   In (Entered QMainWindow_show NoArgs)
      (trace (snd (GuiMain env_ok [] startup)))) /\
  (visible (snd (GuiMain env_init_fail [] startup)) = false /\
   forall a,
     ~ In (Entered QMainWindow_show a)
          (trace (snd (GuiMain env_init_fail [] startup)))).
Proof.
  split; [|split].
  - exact (proj2 (proj2 (proj2 (proj2 (proj2
             (window_shown_iff_init_success
                env_ok [Deliver NodeThread; Deliver InitThread] [])))))).
  - exact (proj1 (proj2 (proj2 (proj2
             (window_shown_iff_init_success env_ok [] startup))))
             eq_refl eq_refl eq_refl eq_refl).
  - exact (proj1 (proj2 (proj2
             (window_shown_iff_init_success env_init_fail [] startup)))
             eq_refl).
Defined.

